(** * The Sandpack provider (react-sandpack, [utils/sandpack-context.tsx])

    A shallow embedding of the [SandpackProvider] class component: its
    state, its properties, the calls it makes to the bundler engine and
    to the change callback, and the way React queues its state updates.
    The properties proved at the end of the file are numbered C1 to C10. *)

From Stdlib Require Import ZArith Ascii.
From stdpp Require Import gmap strings list fin_maps.

(** * Characters used by the JSON text format *)

Definition dquote : ascii := "034"%char.
Definition backslash : ascii := "092"%char.
Definition newline : ascii := "010"%char.
Definition space : ascii := " "%char.

(** * JSON.stringify on the values the provider serialises

    The provider calls [JSON.stringify(value, null, 2)] on an object
    literal whose properties hold strings and one nested object of
    strings. [JSON.value] is the tree of such a value: a string, or an
    object given by its own enumerable properties in enumeration order.
    Strings are byte strings (the UTF-8 encoding of the JavaScript
    string, which is taken to hold no lone surrogate), so that a
    character at or above U+0080 is copied through byte by byte, as
    [JSON.stringify] copies the character. *)

Module JSON.

Unset Elimination Schemes.
Inductive value : Type :=
| Str (s : string)
| Obj (members : list (string * value)).
Set Elimination Schemes.

(** Induction over the tree, with the members of an object as a list. *)
Fixpoint value_ind (P : value → Prop)
    (HStr : ∀ s, P (Str s))
    (HObj : ∀ ms, Forall (λ kv, P kv.2) ms → P (Obj ms))
    (v : value) {struct v} : P v :=
  match v with
  | Str s => HStr s
  | Obj ms =>
      HObj ms
        ((fix members (l : list (string * value)) : Forall (λ kv, P kv.2) l :=
            match l with
            | [] => @List.Forall_nil _ _
            | kv :: l' =>
                @List.Forall_cons _ (λ kv, P kv.2) kv l' (value_ind P HStr HObj kv.2) (members l')
            end) ms)
  end.

(** ** QuoteJSONString (ECMAScript 25.5.2.3) *)

Definition hex_digit (n : nat) : ascii :=
  match n with
  | 0 => "0" | 1 => "1" | 2 => "2" | 3 => "3" | 4 => "4"
  | 5 => "5" | 6 => "6" | 7 => "7" | 8 => "8" | 9 => "9"
  | 10 => "a" | 11 => "b" | 12 => "c" | 13 => "d" | 14 => "e"
  | _ => "f"
  end%char.

(** [\uXXXX] for a code unit below 256, in lower-case hexadecimal. *)
Definition UnicodeEscape (n : nat) : string :=
  String backslash
    (String "u" (String "0" (String "0"
      (String (hex_digit (n / 16)) (String (hex_digit (n mod 16)) EmptyString))))).

Definition escaped (c : ascii) : string := String backslash (String c EmptyString).

Definition quote_char (c : ascii) : string :=
  let n := nat_of_ascii c in
  if n =? 8 then escaped "b"
  else if n =? 9 then escaped "t"
  else if n =? 10 then escaped "n"
  else if n =? 12 then escaped "f"
  else if n =? 13 then escaped "r"
  else if n =? 34 then escaped dquote
  else if n =? 92 then escaped backslash
  else if n <? 32 then UnicodeEscape n
  else String c EmptyString.

Fixpoint quote_chars (s : string) : string :=
  match s with
  | EmptyString => EmptyString
  | String c s' => quote_char c +:+ quote_chars s'
  end.

Definition QuoteJSONString (s : string) : string :=
  String dquote (quote_chars s +:+ String dquote EmptyString).

(** ** SerializeJSONProperty and SerializeJSONObject (25.5.2.2, 25.5.2.5)

    [gap] is the indentation unit, [indent] the current indentation.
    Every property of the values at hand is a string or an object, so
    no property is skipped as undefined. *)

Fixpoint join (separator : string) (parts : list string) : string :=
  match parts with
  | [] => EmptyString
  | [p] => p
  | p :: rest => p +:+ separator +:+ join separator rest
  end.

Fixpoint SerializeJSONProperty (gap indent : string) (v : value) : string :=
  match v with
  | Str s => QuoteJSONString s
  | Obj ms =>
      let stepback := indent in
      let indent := indent +:+ gap in
      let partial :=
        map (λ kv : string * value,
               QuoteJSONString kv.1 +:+ ":" +:+
               (if decide (gap = EmptyString) then EmptyString else " ") +:+
               SerializeJSONProperty gap indent kv.2) ms in
      match partial with
      | [] => "{}"
      | _ =>
          if decide (gap = EmptyString)
          then "{" +:+ join "," partial +:+ "}"
          else
            let separator := "," +:+ String newline indent in
            "{" +:+ String newline indent +:+ join separator partial +:+
            String newline stepback +:+ "}"
      end
  end.

(** [JSON.stringify(value, null, space)] for a numeric [space]: the gap
    is [min(10, space)] space characters. *)
Definition spaces (n : nat) : string :=
  Nat.iter n (String space) EmptyString.

Definition stringify (v : value) (space : nat) : string :=
  SerializeJSONProperty (spaces (Nat.min 10 space)) EmptyString v.

(** ** Reading JSON text back

    A reader for JSON text restricted to string and object values,
    following the JSON grammar (RFC 8259): insignificant white space,
    the two-character escapes and [\uXXXX] escapes of strings. It is
    used to say what a descriptor text denotes; the provider never
    calls it. Text it does not cover (numbers, arrays, literals, code
    points above U+00FF in escapes) is rejected with [None]. *)

Definition is_ws (c : ascii) : bool :=
  let n := nat_of_ascii c in
  (n =? 32) || (n =? 10) || (n =? 13) || (n =? 9).

Fixpoint skip_ws (s : string) : string :=
  match s with
  | EmptyString => EmptyString
  | String c s' => if is_ws c then skip_ws s' else s
  end.

Definition hex_value (c : ascii) : option nat :=
  let n := nat_of_ascii c in
  if (48 <=? n) && (n <=? 57) then Some (n - 48)
  else if (97 <=? n) && (n <=? 102) then Some (n - 87)
  else if (65 <=? n) && (n <=? 70) then Some (n - 55)
  else None.

Definition hex4 (h1 h2 h3 h4 : ascii) : option nat :=
  a ← hex_value h1; b ← hex_value h2; c ← hex_value h3; d ← hex_value h4;
  Some (((a * 16 + b) * 16 + c) * 16 + d).

Definition unescape (e : ascii) : option ascii :=
  let n := nat_of_ascii e in
  if n =? 34 then Some dquote
  else if n =? 92 then Some backslash
  else if n =? 47 then Some "/"%char
  else if n =? 98 then Some "008"%char
  else if n =? 102 then Some "012"%char
  else if n =? 110 then Some "010"%char
  else if n =? 114 then Some "013"%char
  else if n =? 116 then Some "009"%char
  else None.

Definition prepend (c : ascii) (r : option (string * string)) :
    option (string * string) :=
  match r with
  | Some (str, rest) => Some (String c str, rest)
  | None => None
  end.

(** The characters of a string up to its closing quote, and the text
    after that quote. *)
Fixpoint read_chars (s : string) : option (string * string) :=
  match s with
  | EmptyString => None
  | String c s' =>
      if Ascii.eqb c dquote then Some (EmptyString, s')
      else if Ascii.eqb c backslash then
        match s' with
        | EmptyString => None
        | String e s'' =>
            if Ascii.eqb e "u" then
              match s'' with
              | String h1 (String h2 (String h3 (String h4 r))) =>
                  match hex4 h1 h2 h3 h4 with
                  | Some n =>
                      if n <? 256 then prepend (ascii_of_nat n) (read_chars r)
                      else None
                  | None => None
                  end
              | _ => None
              end
            else
              match unescape e with
              | Some c' => prepend c' (read_chars s'')
              | None => None
              end
        end
      else if nat_of_ascii c <? 32 then None
      else prepend c (read_chars s')
  end.

(** A value, then the members of an object after its opening brace;
    [fuel] bounds the number of nested calls. *)
Fixpoint read_value (fuel : nat) (s : string) : option (value * string) :=
  match fuel with
  | 0 => None
  | S fuel =>
      match skip_ws s with
      | EmptyString => None
      | String c r =>
          if Ascii.eqb c dquote then
            '(str, r') ← read_chars r; Some (Str str, r')
          else if Ascii.eqb c "{" then
            match skip_ws r with
            | EmptyString => None
            | String c' r' =>
                if Ascii.eqb c' "}" then Some (Obj [], r')
                else '(ms, r'') ← read_members fuel r; Some (Obj ms, r'')
            end
          else None
      end
  end
with read_members (fuel : nat) (s : string) :
    option (list (string * value) * string) :=
  match fuel with
  | 0 => None
  | S fuel =>
      match skip_ws s with
      | EmptyString => None
      | String c r =>
          if Ascii.eqb c dquote then
            '(k, r1) ← read_chars r;
            match skip_ws r1 with
            | EmptyString => None
            | String colon r2 =>
                if Ascii.eqb colon ":" then
                  '(v, r3) ← read_value fuel r2;
                  match skip_ws r3 with
                  | EmptyString => None
                  | String d r4 =>
                      if Ascii.eqb d "," then
                        '(ms, r5) ← read_members fuel r4; Some ((k, v) :: ms, r5)
                      else if Ascii.eqb d "}" then Some ([(k, v)], r4)
                      else None
                  end
                else None
            end
          else None
      end
  end.

(** The value a whole text denotes. *)
Definition parse (text : string) : option value :=
  match read_value (String.length text) text with
  | Some (v, rest) =>
      match skip_ws rest with
      | EmptyString => Some v
      | String _ _ => None
      end
  | None => None
  end.

(** [value[key]] once the text is parsed: among members with the same
    key the last one wins, as in [JSON.parse]. *)
Fixpoint member (key : string) (ms : list (string * value)) : option value :=
  match ms with
  | [] => None
  | (k, v) :: ms' =>
      match member key ms' with
      | Some v' => Some v'
      | None => if decide (k = key) then Some v else None
      end
  end.

Definition get (key : string) (v : value) : option value :=
  match v with
  | Str _ => None
  | Obj ms => member key ms
  end.

(** The text of one member, as [SerializeJSONObject] builds it. *)
Definition member_text (gap indent : string) (kv : string * value) : string :=
  QuoteJSONString kv.1 +:+ ":" +:+
  (if decide (gap = EmptyString) then EmptyString else " ") +:+
  SerializeJSONProperty gap indent kv.2.

(** Measures used to reason about the reader: texts made of white
    space only, and the number of nested calls a value needs. *)
Fixpoint all_ws (s : string) : bool :=
  match s with
  | EmptyString => true
  | String c s' => is_ws c && all_ws s'
  end.

Fixpoint cost (v : value) : nat :=
  match v with
  | Str _ => 1
  | Obj ms =>
      S ((fix members_cost (l : list (string * value)) : nat :=
            match l with
            | [] => 0
            | kv :: l' => S (Nat.max (cost kv.2) (members_cost l'))
            end) ms)
  end.

Definition members_cost : list (string * value) → nat :=
  fix members_cost (l : list (string * value)) : nat :=
    match l with
    | [] => 0
    | kv :: l' => S (Nat.max (cost kv.2) (members_cost l'))
    end.

End JSON.

(** * Values and objects of the JavaScript side *)

(** A value of TypeScript type [any], as far as the provider looks at
    it: it is compared with string literals by [===] and stored. An
    object is its identity; numbers are the integral ones (line and
    column numbers), so that [===] is plain equality. *)
Inductive any : Type :=
| JsUndefined
| JsNull
| JsBoolean (b : bool)
| JsNumber (n : Z)
| JsString (s : string)
| JsObject (id : nat).

#[global] Instance any_eq_dec : EqDecision any.
Proof. solve_decision. Defined.

(** An object held by reference: [!==] on two objects compares [addr]. *)
Record Ref (A : Type) : Type := mkRef { addr : nat; deref : A }.
Arguments mkRef {A} addr deref.
Arguments addr {A} r.
Arguments deref {A} r.

(** The hidden iframe element, the change callback and the file resolver
    are handles the provider passes on without looking inside. *)
Definition HTMLIFrameElement : Type := nat.
Definition Callback : Type := nat.
Definition FileResolver : Type := nat.

(** Modelled from the spec: the declarations of [IFile] and [IFiles]
    are in [../types], which is not part of the source at hand. The
    spec gives a file as its content (text) under a path key; its
    optional metadata plays no part in the provider. [code] is [None]
    for JavaScript's [undefined], the value [files[path]?.code] has
    when no file is at [path]. *)
Record IFile : Type := { code : option string }.

#[global] Instance IFile_eq_dec : EqDecision IFile.
Proof. solve_decision. Defined.

Abbreviation IFiles := (gmap string IFile).

(** Modelled from the spec: [IModuleError] is declared in [../types]
    too; the spec gives it as [{title, path, message, line, column}].
    The fields hold whatever the message carried, which is of type
    [any]. *)
Record IModuleError : Type := {
  title : any;
  path : any;
  message : any;
  line : any;
  column : any;
}.

(** [Record<string, string>]: the own properties of the object in
    enumeration order, which is the order [JSON.stringify] follows. *)
Definition Dependencies : Type := list (string * string).

(** [export interface State]. [managerState] and [status] are assigned
    from a message of type [any] and are kept as such. *)
Module State.
Record t : Type := mk {
  files : IFiles;
  browserPath : string;
  openedPath : string;
  iframe : option HTMLIFrameElement;
  managerState : any;
  errors : list IModuleError;
  status : any;
}.
End State.

(** [export interface Props], the properties the class reads outside
    [render]. [skipEval] has a default in [defaultProps], so it is
    always a boolean; [template] is a string tag. *)
Module Props.
Record t : Type := mk {
  showOpenInCodeSandbox : option bool;
  files : Ref IFiles;
  initialPath : option string;
  entry : option string;
  openedPath : option string;
  dependencies : option (Ref Dependencies);
  bundlerURL : option string;
  skipEval : bool;
  template : option string;
  onFileChange : option Callback;
  fileResolver : option FileResolver;
}.
End Props.

(** The message handed to [handleMessage = (m: any) => ...]: an object,
    read through the nine properties below; a property the object
    lacks reads as [JsUndefined]. *)
Module Message.
Record t : Type := mk {
  type : any;
  action : any;
  state : any;
  status : any;
  title : any;
  path : any;
  message : any;
  line : any;
  column : any;
}.
End Message.

(** ** The engine *)

(** The result of [getOptions]. *)
Record ManagerOptions : Type := {
  opt_bundlerURL : option string;
  opt_fileResolver : option FileResolver;
  opt_skipEval : bool;
}.

(** The argument of [updatePreview]. *)
Record SandboxInfo : Type := {
  info_showOpenInCodeSandbox : option bool;
  info_files : IFiles;
  info_template : option string;
}.

(** The handle [new Manager(el, ..., options)] returns, known by what
    it was made from. Its [bundlerURL] property is set by the engine. *)
Record Manager : Type := {
  manager_iframe : HTMLIFrameElement;
  manager_options : ManagerOptions;
}.

(** The value of [_getSandpackState], without its function members
    (the bound methods of the provider, the same at every call).
    [ctx_bundlerURL] is [manager.bundlerURL] of the manager given, or
    [undefined]. *)
Record ISandpackContext : Type := {
  ctx_files : IFiles;
  ctx_openedPath : string;
  ctx_browserPath : string;
  ctx_errors : list IModuleError;
  ctx_managerState : any;
  ctx_managerStatus : any;
  ctx_browserFrame : option HTMLIFrameElement;
  ctx_bundlerURL : option Manager;
}.

(** What the provider does to the outside, in order. In [NewManager]
    the files are the arguments of smooshpack's [generatePackageJSON],
    which is left uninterpreted. *)
Inductive Event : Type :=
| Listen
| Unlisten
| NewManager (el : HTMLIFrameElement)
    (files : IFiles) (dependencies : option Dependencies) (entry : option string)
    (template : option string) (showOpenInCodeSandbox : option bool)
    (options : ManagerOptions)
| UpdatePreview (manager : Manager) (info : SandboxInfo)
| UpdateOptions (manager : Manager) (options : ManagerOptions)
| FileChange (callback : Callback) (files : IFiles) (sandpack : ISandpackContext).

Inductive Exn : Type := Error (msg : string).

(** ** State updates

    Every object given to [setState] in this class has one key. *)
Inductive Patch : Type :=
| SetFiles (files : IFiles)
| SetOpenedPath (path : string)
| SetIframe (el : option HTMLIFrameElement)
| SetManagerState (v : any)
| SetErrors (errors : list IModuleError)
| SetStatus (v : any).

(** [Object.assign({}, state, patch)] *)
Definition assign (s : State.t) (p : Patch) : State.t :=
  match p with
  | SetFiles fs =>
      State.mk fs (State.browserPath s) (State.openedPath s) (State.iframe s)
        (State.managerState s) (State.errors s) (State.status s)
  | SetOpenedPath path =>
      State.mk (State.files s) (State.browserPath s) path (State.iframe s)
        (State.managerState s) (State.errors s) (State.status s)
  | SetIframe el =>
      State.mk (State.files s) (State.browserPath s) (State.openedPath s) el
        (State.managerState s) (State.errors s) (State.status s)
  | SetManagerState v =>
      State.mk (State.files s) (State.browserPath s) (State.openedPath s)
        (State.iframe s) v (State.errors s) (State.status s)
  | SetErrors es =>
      State.mk (State.files s) (State.browserPath s) (State.openedPath s)
        (State.iframe s) (State.managerState s) es (State.status s)
  | SetStatus v =>
      State.mk (State.files s) (State.browserPath s) (State.openedPath s)
        (State.iframe s) (State.managerState s) (State.errors s) v
  end.

(** The argument of [setState]: an object, or a function of the state
    the update is applied to. *)
Inductive Update : Type :=
| Partial (p : Patch)
| Updater (f : State.t → Patch).

Definition applyUpdate (s : State.t) (u : Update) : State.t :=
  match u with
  | Partial p => assign s p
  | Updater f => assign s (f s)
  end.

(** ** The component instance

    [this.props], [this.state], [this.manager] and [this.iframe], and
    React's queue of the updates given to [setState] that it has not
    applied to [this.state] yet. [this.listener] is the unsubscribe
    function and holds no data. *)
Record This : Type := mkThis {
  props : Props.t;
  state : State.t;
  pending : list Update;
  manager : option Manager;
  iframe : option HTMLIFrameElement;
}.

(** The state once React has applied the queue, in order. *)
Definition nextState (c : This) : State.t :=
  foldl applyUpdate (state c) (pending c).

(** ** Methods as computations

    A method runs on the instance, may change it, performs events and
    either returns or throws. *)
Inductive Completion (A : Type) : Type :=
| Normal (a : A)
| Throw (e : Exn).
Arguments Normal {A} a.
Arguments Throw {A} e.

Definition M (A : Type) : Type := This → Completion A * This * list Event.

Definition ret {A} (a : A) : M A := λ c, (Normal a, c, []).

Definition bind {A B} (m : M A) (f : A → M B) : M B := λ c,
  match m c with
  | (Normal a, c1, ev1) =>
      match f a c1 with
      | (r, c2, ev2) => (r, c2, ev1 ++ ev2)
      end
  | (Throw e, c1, ev1) => (Throw e, c1, ev1)
  end.

Definition emit (ev : Event) : M unit := λ c, (Normal tt, c, [ev]).
Definition this : M This := λ c, (Normal c, c, []).
Definition modify (f : This → This) : M unit := λ c, (Normal tt, f c, []).

(** The completion of a call that does not touch the instance. *)
Definition lift {A} (r : Completion A) : M A := λ c, (r, c, []).

Declare Scope js_scope.
Delimit Scope js_scope with js.
Notation "x <- m ;; k" := (bind m (λ x, k))
  (at level 100, m at next level, right associativity) : js_scope.
Notation "m ;; k" := (bind m (λ _, k))
  (at level 100, right associativity) : js_scope.

Definition completed {A} (r : Completion A * This * list Event) : This := r.1.2.
Definition trace {A} (r : Completion A * This * list Event) : list Event := r.2.
Definition completion {A} (r : Completion A * This * list Event) : Completion A := r.1.1.

(** [a || b] where [a] is a string or [undefined]: the empty string and
    [undefined] are falsy. *)
Definition or_else (a : option string) (b : string) : string :=
  match a with
  | Some s => if decide (s = EmptyString) then b else s
  | None => b
  end.

(** * The provider class *)

(** The object literal given to [JSON.stringify] in
    [createMissingPackageJSON]. *)
Definition descriptor (dependencies : Dependencies) (entry : string) : JSON.value :=
  JSON.Obj
    [("name", JSON.Str "run");
     ("main", JSON.Str entry);
     ("dependencies", JSON.Obj (map (λ kv, (kv.1, JSON.Str kv.2)) dependencies))].

(** The messages of the two configuration errors. *)
Definition no_dependencies : string :=
  "No dependencies specified, please specify either a package.json or dependencies.".
Definition no_entry : string :=
  "No entry specified, please specify either a package.json with 'main' field or dependencies.".

Definition createMissingPackageJSON (files : IFiles)
    (dependencies : option Dependencies) (entry : option string) : Completion IFiles :=
  let newFiles := files in
  match newFiles !! "/package.json" with
  | Some _ => Normal newFiles
  | None =>
      match dependencies with
      | None => Throw (Error no_dependencies)
      | Some dependencies =>
          match entry with
          | Some entry =>
              if decide (entry = EmptyString) then Throw (Error no_entry)
              else
                Normal (<["/package.json" :=
                           {| code := Some (JSON.stringify (descriptor dependencies entry) 2) |}]>
                        newFiles)
          | None => Throw (Error no_entry)
          end
      end
  end.

(** [constructor(props)]: the state is built first, then the message
    listener is registered. *)
Definition constructor (props : Props.t) : Completion This * list Event :=
  match createMissingPackageJSON (deref (Props.files props))
          (deref <$> Props.dependencies props) (Props.entry props) with
  | Throw e => (Throw e, [])
  | Normal files =>
      (Normal
         (mkThis props
            (State.mk files
               (or_else (Props.initialPath props) "/")
               (or_else (Props.openedPath props)
                  (or_else (Props.entry props) "/index.js"))
               None JsUndefined [] (JsString "initializing"))
            [] None None),
       [Listen])
  end.

Definition getOptions (c : This) : ManagerOptions :=
  {| opt_bundlerURL := Props.bundlerURL (props c);
     opt_fileResolver := Props.fileResolver (props c);
     opt_skipEval := Props.skipEval (props c) |}.

Definition _getSandpackState (c : This) : ISandpackContext :=
  {| ctx_files := State.files (state c);
     ctx_openedPath := State.openedPath (state c);
     ctx_browserPath := State.browserPath (state c);
     ctx_errors := State.errors (state c);
     ctx_managerState := State.managerState (state c);
     ctx_managerStatus := State.status (state c);
     ctx_browserFrame := State.iframe (state c);
     ctx_bundlerURL := manager c |}.

(** [a !== b] on two optional object references. *)
Definition ref_differs {A} (a b : option (Ref A)) : bool :=
  match a, b with
  | Some x, Some y => bool_decide (addr x ≠ addr y)
  | None, None => false
  | _, _ => true
  end.

(** The object literal [{ title, path, message, line, column }] built
    from a message. *)
Definition moduleError (m : Message.t) : IModuleError :=
  {| title := Message.title m; path := Message.path m;
     message := Message.message m; line := Message.line m;
     column := Message.column m |}.

Section Provider.

(** Whether React is batching updates while the method runs (inside a
    React event handler or a commit) or applies each [setState] at once
    (in a plain event listener, such as the message channel's). *)
Variable batched : bool.

Local Open Scope js_scope.

(** React's [enqueueSetState]: the update joins the queue, which is
    applied at once unless updates are being batched. Applying it
    re-renders the provider with the properties it has, which calls no
    method that changes it ([componentDidUpdate] then sees its own
    properties, see [componentDidUpdate_same_props] below). *)
Definition enqueueSetState (u : Update) (c : This) : This :=
  if batched
  then mkThis (props c) (state c) (pending c ++ [u]) (manager c) (iframe c)
  else mkThis (props c) (applyUpdate (nextState c) u) [] (manager c) (iframe c).

Definition setState (u : Update) : M unit := modify (enqueueSetState u).

Definition handleMessage (m : Message.t) : M unit :=
  if bool_decide (Message.type m = JsString "state") then
    setState (Partial (SetManagerState (Message.state m)))
  else if bool_decide (Message.type m = JsString "start") then
    setState (Partial (SetErrors []))
  else if bool_decide (Message.type m = JsString "status") then
    setState (Partial (SetStatus (Message.status m)))
  else if bool_decide (Message.type m = JsString "action")
          && bool_decide (Message.action m = JsString "show-error") then
    setState (Updater (λ state,
      SetErrors (State.errors state ++ [moduleError m])))
  else ret tt.

Definition setupFrame (el : option HTMLIFrameElement) : M unit :=
  match el with
  | Some el =>
      c <- this ;;
      emit (NewManager el (deref (Props.files (props c)))
              (deref <$> Props.dependencies (props c)) (Props.entry (props c))
              (Props.template (props c)) (Props.showOpenInCodeSandbox (props c))
              (getOptions c)) ;;
      modify (λ c, mkThis (props c) (state c) (pending c)
                     (Some {| manager_iframe := el; manager_options := getOptions c |})
                     (iframe c)) ;;
      modify (λ c, mkThis (props c) (state c) (pending c) (manager c) (Some el)) ;;
      setState (Partial (SetIframe (Some el)))
  | None => ret tt
  end.

Definition updateFiles (files : IFiles) : M unit :=
  setState (Partial (SetFiles files)) ;;
  c <- this ;;
  (match Props.onFileChange (props c) with
   | Some onFileChange => emit (FileChange onFileChange files (_getSandpackState c))
   | None => ret tt
   end) ;;
  match manager c with
  | Some manager =>
      emit (UpdatePreview manager
              {| info_showOpenInCodeSandbox := Props.showOpenInCodeSandbox (props c);
                 info_files := files;
                 info_template := Props.template (props c) |})
  | None => ret tt
  end.

(** [this.state.files[this.state.openedPath]?.code] *)
Definition openedCode (s : State.t) : option string :=
  match State.files s !! State.openedPath s with
  | Some file => code file
  | None => None
  end.

Definition updateCurrentFile (file : IFile) : M unit :=
  c <- this ;;
  if bool_decide (code file ≠ openedCode (state c)) then
    updateFiles (<[State.openedPath (state c) := file]> (State.files (state c)))
  else ret tt.

(** [componentDidUpdate(props)]: the argument holds the previous
    properties, [this.props] the current ones. *)
Definition componentDidUpdate (prev : Props.t) : M unit :=
  c <- this ;;
  (if bool_decide (addr (Props.files prev) ≠ addr (Props.files (props c)))
      || ref_differs (Props.dependencies prev) (Props.dependencies (props c))
      || bool_decide (Props.entry prev ≠ Props.entry (props c))
      || bool_decide (Props.template prev ≠ Props.template (props c))
   then
     newFiles <- lift (createMissingPackageJSON (deref (Props.files (props c)))
                         (deref <$> Props.dependencies (props c))
                         (Props.entry (props c))) ;;
     updateFiles newFiles
   else ret tt) ;;
  c <- this ;;
  match manager c with
  | Some manager =>
      if bool_decide (Props.skipEval (props c) ≠ Props.skipEval prev)
      then emit (UpdateOptions manager (getOptions c))
      else ret tt
  | None => ret tt
  end.

Definition componentWillUnmount : M unit := emit Unlisten.

Definition openFile (path : string) : M unit :=
  setState (Partial (SetOpenedPath path)).

(** ** What React and the consumers do with the instance *)

(** React commits an update: the queued state updates are applied, the
    properties are replaced by those of the new render, and
    [componentDidUpdate] is given the previous ones. *)
Definition update (newProps : Props.t) : M unit :=
  c <- this ;;
  modify (λ c, mkThis newProps (nextState c) [] (manager c) (iframe c)) ;;
  componentDidUpdate (props c).

(** A call from outside: a message from the channel, or an operation of
    the context value called by a descendant. *)
Inductive Call : Type :=
| CallHandleMessage (m : Message.t)
| CallUpdateFiles (files : IFiles)
| CallUpdateCurrentFile (file : IFile)
| CallOpenFile (path : string).

Definition perform (call : Call) : M unit :=
  match call with
  | CallHandleMessage m => handleMessage m
  | CallUpdateFiles files => updateFiles files
  | CallUpdateCurrentFile file => updateCurrentFile file
  | CallOpenFile path => openFile path
  end.

End Provider.

Inductive Phase : Type := Constructed | Mounted | Unmounted.

(** The file sets a call hands to [updateFiles] directly. *)
Definition direct_files (call : Call) : option IFiles :=
  match call with
  | CallUpdateFiles files => Some files
  | _ => None
  end.

(** The instances a provider can be, and the phase of its life: it is
    constructed; the context operations and the message handler may run
    at any time after that; React attaches the iframe reference once,
    commits updates only while the provider is mounted, and detaches
    the reference when it unmounts. [accepts] restricts the file sets
    the consumers give to [updateFiles]. *)
Inductive lifecycle (accepts : IFiles → Prop) : Phase → This → Prop :=
| life_constructor props c evs :
    constructor props = (Normal c, evs) →
    lifecycle accepts Constructed c
| life_mount batched el c c' evs :
    lifecycle accepts Constructed c →
    setupFrame batched (Some el) c = (Normal tt, c', evs) →
    lifecycle accepts Mounted c'
| life_call batched phase call c c' evs :
    lifecycle accepts phase c →
    (∀ files, direct_files call = Some files → accepts files) →
    perform batched call c = (Normal tt, c', evs) →
    lifecycle accepts phase c'
| life_update batched newProps c c' evs :
    lifecycle accepts Mounted c →
    update batched newProps c = (Normal tt, c', evs) →
    lifecycle accepts Mounted c'
| life_unmount batched c c1 c2 evs1 evs2 :
    lifecycle accepts Mounted c →
    setupFrame batched None c = (Normal tt, c1, evs1) →
    componentWillUnmount c1 = (Normal tt, c2, evs2) →
    lifecycle accepts Unmounted c2.

Definition any_files : IFiles → Prop := λ _, True.
Definition has_package_json (files : IFiles) : Prop :=
  is_Some (files !! "/package.json").

(** * Observations on a run *)

(** The events [updateFiles] performs on the instance [c] it has just
    given the new files to: the call of the change callback, if one is
    configured, then the call of the engine, if a manager exists. *)
Definition file_change_events (c : This) (files : IFiles) : list Event :=
  match Props.onFileChange (props c) with
  | Some onFileChange => [FileChange onFileChange files (_getSandpackState c)]
  | None => []
  end.

Definition preview_events (c : This) (files : IFiles) : list Event :=
  match manager c with
  | Some manager =>
      [UpdatePreview manager
         {| info_showOpenInCodeSandbox := Props.showOpenInCodeSandbox (props c);
            info_files := files;
            info_template := Props.template (props c) |}]
  | None => []
  end.

Definition is_UpdatePreview (ev : Event) : bool :=
  match ev with UpdatePreview _ _ => true | _ => false end.

Definition is_FileChange (ev : Event) : bool :=
  match ev with FileChange _ _ _ => true | _ => false end.

(** An update that leaves a package descriptor in place. *)
Definition keeps_package_json (u : Update) : Prop :=
  ∀ s, has_package_json (State.files s) →
       has_package_json (State.files (applyUpdate s u)).

(** The invariant of the file mapping: the descriptor is in
    [this.state.files] and stays there when the queue is applied. *)
Definition package_json_kept (c : This) : Prop :=
  has_package_json (State.files (state c)) ∧
  Forall keeps_package_json (pending c).

(** The comparison at the head of [componentDidUpdate], and the events
    of its last statement. *)
Definition resync_needed (prev cur : Props.t) : bool :=
  bool_decide (addr (Props.files prev) ≠ addr (Props.files cur))
  || ref_differs (Props.dependencies prev) (Props.dependencies cur)
  || bool_decide (Props.entry prev ≠ Props.entry cur)
  || bool_decide (Props.template prev ≠ Props.template cur).

Definition options_events (prev : Props.t) (c : This) : list Event :=
  match manager c with
  | Some manager =>
      if bool_decide (Props.skipEval (props c) ≠ Props.skipEval prev)
      then [UpdateOptions manager (getOptions c)]
      else []
  | None => []
  end.

(** ** Sample providers *)

(** A word between double quotes, and a line break, to write down
    expected JSON text. *)
Definition quoted (s : string) : string :=
  String dquote (s +:+ String dquote EmptyString).
Definition br : string := String newline EmptyString.


Definition sample_files : IFiles :=
  {[ "/index.js" := {| code := Some "console.log(1)" |} ]}.

Definition sample_dependencies : Dependencies :=
  [("react", "16.8.0"); ("react-dom", "16.8.0")].

Definition sample_props : Props.t :=
  Props.mk None (mkRef 1 sample_files) None (Some "/index.js") None
    (Some (mkRef 2 sample_dependencies)) None false None None None.

(** The same properties with a change callback. *)
Definition sample_props_callback : Props.t :=
  Props.mk None (mkRef 1 sample_files) None (Some "/index.js") None
    (Some (mkRef 2 sample_dependencies)) None false None (Some 7) None.

(** The same properties with evaluation skipped. *)
Definition sample_props_skipEval : Props.t :=
  Props.mk None (mkRef 1 sample_files) None (Some "/index.js") None
    (Some (mkRef 2 sample_dependencies)) None true None None None.

(** No descriptor and no dependencies. *)
Definition sample_props_bare : Props.t :=
  Props.mk None (mkRef 1 sample_files) None (Some "/index.js") None
    None None false None None None.

Definition sample_state (files : IFiles) : State.t :=
  State.mk files "/" "/index.js" None JsUndefined [] (JsString "initializing").

(** The sample provider as constructed, and once its iframe (element 5)
    is attached and the update of [setupFrame] is applied. *)
Definition sample_constructed : This :=
  mkThis sample_props
    (sample_state
       (<["/package.json" :=
            {| code := Some (JSON.stringify (descriptor sample_dependencies "/index.js") 2) |}]>
        sample_files))
    [] None None.

Definition sample_mounted : This :=
  completed (setupFrame false (Some 5) sample_constructed).

(** The provider with a change callback (handle 7), mounted. *)
Definition sample_mounted_callback : This :=
  match constructor sample_props_callback with
  | (Normal c, _) => completed (setupFrame false (Some 5) c)
  | (Throw _, _) => sample_mounted
  end.

(** The mounted sample provider after a descendant has called
    [updateFiles] with an empty file set in an event handler and React
    has committed the update. *)
Definition sample_emptied : This :=
  completed (update true sample_props
               (completed (updateFiles true ∅ sample_mounted))).

Definition show_error (n : Z) : Message.t :=
  Message.mk (JsString "action") (JsString "show-error") JsUndefined JsUndefined
    (JsString "SyntaxError") (JsString "/index.js") (JsString "Unexpected token")
    (JsNumber n) (JsNumber 1).

Definition start_message : Message.t :=
  Message.mk (JsString "start") JsUndefined JsUndefined JsUndefined
    JsUndefined JsUndefined JsUndefined JsUndefined JsUndefined.

Definition resize_message : Message.t :=
  Message.mk (JsString "resize") JsUndefined JsUndefined JsUndefined
    JsUndefined JsUndefined JsUndefined JsUndefined JsUndefined.

(** * The wrapper and the transpiler request *)

(** A component as [getDisplayName] reads it: its [displayName]
    property, which may be missing, and the [name] every function has
    (possibly empty). *)
Module Component.
Record t : Type := mk {
  displayName : option string;
  name : string;
}.
End Component.

Definition getDisplayName (WrappedComponent : Component.t) : string :=
  or_else (Component.displayName WrappedComponent)
    (or_else (Some (Component.name WrappedComponent)) "Component").

(** [withSandpack(Component)]: the wrapper is the arrow function bound
    to the constant [WrappedComponent], which gives it that name; its
    [displayName] is assigned before it is returned. *)
Definition withSandpack (C : Component.t) : Component.t :=
  Component.mk (Some ("WithSandpack(" +:+ getDisplayName C +:+ ")")) "WrappedComponent".

(** [getManagerTranspilerContext]. The promise executor runs at the
    call: it registers a listener of its own and, when a manager
    exists, dispatches the request. The listener reads the [type] and
    the [data] of a message; on the first message of type
    'transpiler-context' it resolves the promise and unsubscribes, so
    it is not called again. *)
Module TranspilerContext.

Record message : Type := mkMessage { type : any; data : any }.

Inductive Effect : Type :=
| Listen
| Dispatch (manager : Manager) (type : string)
| Resolve (data : any)
| Unlisten.

(** The promise: pending with the listener subscribed, or resolved
    with the listener gone. There is no call of a reject function. *)
Inductive Promise : Type :=
| Pending
| Resolved (data : any).

Definition getManagerTranspilerContext (c : This) : Promise * list Effect :=
  (Pending,
   Listen ::
   match manager c with
   | Some manager => [Dispatch manager "get-transpiler-context"]
   | None => []
   end).

Definition listener (p : Promise) (m : message) : Promise * list Effect :=
  match p with
  | Pending =>
      if bool_decide (type m = JsString "transpiler-context")
      then (Resolved (data m), [Resolve (data m); Unlisten])
      else (Pending, [])
  | Resolved d => (Resolved d, [])
  end.

(** The channel delivers messages one after the other. *)
Fixpoint deliver (p : Promise) (ms : list message) : Promise * list Effect :=
  match ms with
  | [] => (p, [])
  | m :: ms' =>
      match listener p m with
      | (p1, ev1) =>
          match deliver p1 ms' with
          | (p2, ev2) => (p2, ev1 ++ ev2)
          end
      end
  end.

Definition is_request (m : message) : Prop := type m = JsString "transpiler-context".

End TranspilerContext.

(** The calls that reach the engine. *)
Definition is_engine_call (ev : Event) : bool :=
  match ev with
  | NewManager _ _ _ _ _ _ _ | UpdatePreview _ _ | UpdateOptions _ _ => true
  | _ => false
  end.

(** [render]: the [src] attribute of the hidden iframe, the element
    the manager is made for, is [this.props.bundlerURL]. *)
Definition render_iframe_src (c : This) : option string :=
  Props.bundlerURL (props c).

(** ** More sample values *)

(** Properties whose files bring their own descriptor, with neither
    dependencies nor entry. *)
Definition sample_props_own_descriptor : Props.t :=
  Props.mk None
    (mkRef 4 (<["/package.json" := {| code := Some "{}" |}]> sample_files))
    None None None None None false None None None.

Definition sample_own_constructed : This :=
  mkThis sample_props_own_descriptor
    (sample_state (deref (Props.files sample_props_own_descriptor)))
    [] None None.

(** The sample properties with a new files object of the same content. *)
Definition sample_props_fresh_files : Props.t :=
  Props.mk None (mkRef 3 sample_files) None (Some "/index.js") None
    (Some (mkRef 2 sample_dependencies)) None false None None None.

(** A new files object without descriptor, and no dependencies. *)
Definition sample_props_bare_fresh : Props.t :=
  Props.mk None (mkRef 3 sample_files) None (Some "/index.js") None
    None None true None None None.

(** The sample properties with another bundler URL. *)
Definition sample_props_bundler : Props.t :=
  Props.mk None (mkRef 1 sample_files) None (Some "/index.js") None
    (Some (mkRef 2 sample_dependencies)) (Some "https://bundler.example/") false
    None None None.

Definition state_message : Message.t :=
  Message.mk (JsString "state") JsUndefined (JsObject 9) JsUndefined
    JsUndefined JsUndefined JsUndefined JsUndefined JsUndefined.

Definition status_message : Message.t :=
  Message.mk (JsString "status") JsUndefined JsUndefined (JsString "transpiling")
    JsUndefined JsUndefined JsUndefined JsUndefined JsUndefined.

(** Membership of an event in a short explicit trace. *)
Ltac no_such_event :=
  let Hin := fresh "Hin" in
  intros Hin; simpl in Hin;
  repeat (apply elem_of_cons in Hin as [Hin|Hin]; [discriminate Hin |]);
  by apply elem_of_nil in Hin.

(** * Facts about the JSON text format *)

Module JSONFacts.
Import JSON.

#[local] Arguments String.append !s1 s2 : simpl nomatch.

Lemma append_assoc (a b c : string) : (a +:+ b) +:+ c = a +:+ (b +:+ c).
Proof. induction a as [|x a IH]; simpl; [done | by rewrite IH]. Qed.

Lemma length_append (a b : string) :
  String.length (a +:+ b) = String.length a + String.length b.
Proof. induction a as [|x a IH]; simpl; [done | by rewrite IH]. Qed.

(** ** Strings *)

Lemma read_quote_char (c : ascii) (tail : string) :
  read_chars (quote_char c +:+ tail) = prepend c (read_chars tail).
Proof.
  destruct c as [[] [] [] [] [] [] [] []]; reflexivity.
Qed.

Lemma read_quote_chars (s rest : string) :
  read_chars (quote_chars s +:+ String dquote rest) = Some (s, rest).
Proof.
  induction s as [|c s IH]; [done |].
  cbn [quote_chars]. by rewrite append_assoc, read_quote_char, IH.
Qed.

(** ** White space *)

Lemma skip_ws_app (w s : string) :
  all_ws w = true → skip_ws (w +:+ s) = skip_ws s.
Proof.
  induction w as [|c w IH]; simpl; [done |].
  intros [Hc Hw]%andb_true_iff. rewrite Hc. auto.
Qed.

Lemma all_ws_app (a b : string) :
  all_ws a = true → all_ws b = true → all_ws (a +:+ b) = true.
Proof.
  induction a as [|c a IH]; simpl; [done |].
  intros [Hc Ha]%andb_true_iff Hb. rewrite Hc. simpl. auto.
Qed.

Lemma all_ws_spaces (n : nat) : all_ws (spaces n) = true.
Proof. induction n as [|n IH]; simpl; [done | exact IH]. Qed.

Lemma read_value_skip (fuel : nat) (w s : string) :
  all_ws w = true → read_value fuel (w +:+ s) = read_value fuel s.
Proof. intros Hw. destruct fuel; simpl; [done |]. by rewrite skip_ws_app. Qed.

Lemma read_members_skip (fuel : nat) (w s : string) :
  all_ws w = true → read_members fuel (w +:+ s) = read_members fuel s.
Proof. intros Hw. destruct fuel; simpl; [done |]. by rewrite skip_ws_app. Qed.

(** ** Objects *)

Lemma Serialize_Obj (gap indent : string) (ms : list (string * value)) :
  SerializeJSONProperty gap indent (Obj ms) =
  match map (member_text gap (indent +:+ gap)) ms with
  | [] => "{}"
  | partial =>
      if decide (gap = EmptyString)
      then "{" +:+ join "," partial +:+ "}"
      else
        "{" +:+ String newline (indent +:+ gap) +:+
        join ("," +:+ String newline (indent +:+ gap)) partial +:+
        String newline indent +:+ "}"
  end.
Proof. destruct ms; reflexivity. Qed.

Lemma cost_Obj (ms : list (string * value)) : cost (Obj ms) = S (members_cost ms).
Proof. reflexivity. Qed.

Lemma read_member (gap indent : string) (k : string) (v : value)
    (fuel : nat) (tail : string) :
  all_ws gap = true →
  (∀ rest, read_value fuel (SerializeJSONProperty gap indent v +:+ rest) = Some (v, rest)) →
  read_members (S fuel) (member_text gap indent (k, v) +:+ tail) =
  match skip_ws tail with
  | EmptyString => None
  | String d r =>
      if Ascii.eqb d "," then
        '(ms, r') ← read_members fuel r; Some ((k, v) :: ms, r')
      else if Ascii.eqb d "}" then Some ([(k, v)], r)
      else None
  end.
Proof.
  intros Hgap Hv. unfold member_text, QuoteJSONString. cbn [fst snd].
  rewrite !append_assoc. simpl. rewrite append_assoc. simpl.
  rewrite read_quote_chars. simpl.
  rewrite read_value_skip by (by destruct (decide (gap = EmptyString))).
  rewrite Hv. simpl. done.
Qed.

Lemma read_member_comma (gap indent : string) (k : string) (v : value)
    (fuel : nat) (tail : string) :
  all_ws gap = true →
  (∀ rest, read_value fuel (SerializeJSONProperty gap indent v +:+ rest) = Some (v, rest)) →
  read_members (S fuel) (member_text gap indent (k, v) +:+ "," +:+ tail) =
  '(ms, r') ← read_members fuel tail; Some ((k, v) :: ms, r').
Proof. intros Hgap Hv. by rewrite (read_member _ _ _ _ _ _ Hgap Hv). Qed.

Lemma read_member_close (gap indent w : string) (k : string) (v : value)
    (fuel : nat) (rest : string) :
  all_ws gap = true → all_ws w = true →
  (∀ rest, read_value fuel (SerializeJSONProperty gap indent v +:+ rest) = Some (v, rest)) →
  read_members (S fuel) (member_text gap indent (k, v) +:+ w +:+ "}" +:+ rest) =
  Some ([(k, v)], rest).
Proof.
  intros Hgap Hw Hv. rewrite (read_member _ _ _ _ _ _ Hgap Hv).
  by rewrite skip_ws_app.
Qed.

Lemma read_joined (gap indent w0 w2 : string) (ms : list (string * value)) :
  all_ws gap = true → all_ws w0 = true → all_ws w2 = true →
  Forall (λ kv, ∀ fuel rest, cost kv.2 ≤ fuel →
            read_value fuel (SerializeJSONProperty gap indent kv.2 +:+ rest)
            = Some (kv.2, rest)) ms →
  ms ≠ [] →
  ∀ fuel rest, members_cost ms ≤ fuel →
    read_members fuel
      (join ("," +:+ w0) (map (member_text gap indent) ms) +:+ w2 +:+ "}" +:+ rest)
    = Some (ms, rest).
Proof.
  intros Hgap Hw0 Hw2 Hall. induction Hall as [|[k v] ms Hv Hms IH]; [done |].
  intros _ fuel rest Hfuel. cbn [members_cost snd] in Hfuel.
  destruct fuel as [|fuel]; [lia |].
  assert (∀ r, read_value fuel (SerializeJSONProperty gap indent v +:+ r) = Some (v, r))
    as Hread by (intros r; apply Hv; simpl; lia).
  destruct ms as [|kv' ms'].
  - cbn [map join]. by apply read_member_close.
  - assert (members_cost (kv' :: ms') ≤ fuel) as Hrest by lia.
    change (join ("," +:+ w0) (map (member_text gap indent) ((k, v) :: kv' :: ms')))
      with (member_text gap indent (k, v) +:+ ("," +:+ w0) +:+
            join ("," +:+ w0) (map (member_text gap indent) (kv' :: ms'))).
    rewrite !append_assoc.
    rewrite (read_member_comma _ _ _ _ _ _ Hgap Hread).
    rewrite read_members_skip by done.
    by rewrite IH.
Qed.

Lemma append_nil_r (a : string) : a +:+ EmptyString = a.
Proof. induction a as [|x a IH]; simpl; [done | by rewrite IH]. Qed.

Lemma join_head (sep : string) (f : string * value → string)
    (kv : string * value) (ms : list (string * value)) :
  ∃ tail, join sep (map f (kv :: ms)) = f kv +:+ tail.
Proof.
  destruct ms as [|kv' ms].
  - exists EmptyString. simpl. by rewrite append_nil_r.
  - by eexists.
Qed.

Lemma read_value_open (fuel : nat) (w gap indent : string)
    (kv : string * value) (tail : string) :
  all_ws w = true →
  read_value (S fuel) ("{" +:+ w +:+ member_text gap indent kv +:+ tail) =
  '(ms, r) ← read_members fuel (member_text gap indent kv +:+ tail); Some (Obj ms, r).
Proof.
  intros Hw. simpl. rewrite skip_ws_app by done.
  by rewrite read_members_skip.
Qed.

(** The reader gives back the value a text was serialised from,
    whatever follows the text, for any indentation made of spaces. *)
Lemma read_serialized (gap : string) (v : value) :
  all_ws gap = true →
  ∀ indent fuel rest, all_ws indent = true → cost v ≤ fuel →
    read_value fuel (SerializeJSONProperty gap indent v +:+ rest) = Some (v, rest).
Proof.
  intros Hgap. induction v as [s|ms IH] using value_ind;
    intros indent fuel rest Hindent Hfuel.
  - destruct fuel as [|fuel]; [simpl in Hfuel; lia |].
    cbn [SerializeJSONProperty]. unfold QuoteJSONString. simpl.
    rewrite append_assoc. simpl. by rewrite read_quote_chars.
  - rewrite cost_Obj in Hfuel. destruct fuel as [|fuel]; [lia |].
    rewrite Serialize_Obj.
    destruct ms as [|kv ms]; [done |].
    set (ms' := kv :: ms) in *.
    assert (all_ws (indent +:+ gap) = true) as Hin' by by apply all_ws_app.
    assert (read_members fuel
              (join ("," +:+ (if decide (gap = EmptyString) then EmptyString
                              else String newline (indent +:+ gap)))
                 (map (member_text gap (indent +:+ gap)) ms') +:+
               (if decide (gap = EmptyString) then EmptyString
                else String newline indent) +:+ "}" +:+ rest)
            = Some (ms', rest)) as Hms.
    { apply read_joined; try done.
      - by destruct (decide (gap = EmptyString)).
      - by destruct (decide (gap = EmptyString)).
      - eapply Forall_impl; [exact IH |]. intros kv' Hkv f r Hf. by apply Hkv.
      - lia. }
    subst ms'.
    destruct (join_head ("," +:+ (if decide (gap = EmptyString) then EmptyString
                                  else String newline (indent +:+ gap)))
                (member_text gap (indent +:+ gap)) kv ms) as [t Ht].
    rewrite Ht in Hms. rewrite append_assoc in Hms.
    cbn [map] in *. cbv zeta.
    destruct (decide (gap = EmptyString)) as [Hg|Hg].
    + change (String.append "," EmptyString) with "," in Ht. rewrite Ht.
      rewrite !append_assoc.
      change ("{" +:+ member_text gap (indent +:+ gap) kv +:+ t +:+ "}" +:+ rest)
        with ("{" +:+ EmptyString +:+ member_text gap (indent +:+ gap) kv +:+
              t +:+ EmptyString +:+ "}" +:+ rest).
      rewrite read_value_open by done. by rewrite Hms.
    + rewrite Ht. rewrite !append_assoc.
      rewrite read_value_open by done. by rewrite Hms.
Qed.

(** The text of a value is at least as long as the fuel it needs. *)
Lemma cost_le_length (gap : string) (v : value) :
  ∀ indent, cost v ≤ String.length (SerializeJSONProperty gap indent v).
Proof.
  induction v as [s|ms IH] using value_ind; intros indent.
  - simpl. lia.
  - rewrite cost_Obj, Serialize_Obj.
    assert (∀ sep, members_cost ms ≤
              String.length (join sep (map (member_text gap (indent +:+ gap)) ms)))
      as Hjoin.
    { intros sep. induction IH as [|[k v] ms Hv Hms IHms]; [simpl; lia |].
      specialize (Hv (indent +:+ gap)). cbn [snd] in Hv.
      assert (S (cost v) ≤ String.length (member_text gap (indent +:+ gap) (k, v)))
        as Hmember.
      { unfold member_text, QuoteJSONString. cbn [fst snd].
        rewrite !length_append. cbn [String.length]. lia. }
      destruct ms as [|kv' ms'].
      - simpl in *. lia.
      - change (join sep (map (member_text gap (indent +:+ gap)) ((k, v) :: kv' :: ms')))
          with (member_text gap (indent +:+ gap) (k, v) +:+ sep +:+
                join sep (map (member_text gap (indent +:+ gap)) (kv' :: ms'))).
        rewrite !length_append. cbn [members_cost snd] in *. lia. }
    destruct ms as [|kv ms]; [simpl; lia |].
    cbn [map]. cbv zeta. cbn [map] in Hjoin.
    destruct (decide (gap = EmptyString)).
    + specialize (Hjoin ","). rewrite !length_append. cbn [String.length]. lia.
    + specialize (Hjoin ("," +:+ String newline (indent +:+ gap))).
      rewrite !length_append. cbn [String.length]. lia.
Qed.

(** Parsing the text [JSON.stringify] produces gives the value back. *)
Lemma parse_stringify (v : value) (space : nat) :
  parse (stringify v space) = Some v.
Proof.
  unfold parse, stringify.
  pose proof (read_serialized (spaces (Nat.min 10 space)) v
                (all_ws_spaces _) EmptyString
                (String.length (SerializeJSONProperty (spaces (Nat.min 10 space)) EmptyString v))
                EmptyString eq_refl (cost_le_length _ _ _)) as H.
  rewrite append_nil_r in H. by rewrite H.
Qed.

End JSONFacts.

(** * Facts about the provider *)

(** ** State updates *)

Lemma nextState_enqueue (b : bool) (u : Update) (c : This) :
  nextState (enqueueSetState b u c) = applyUpdate (nextState c) u.
Proof.
  unfold enqueueSetState, nextState. destruct b; simpl; [|done].
  by rewrite foldl_app.
Qed.

Lemma props_enqueue (b : bool) (u : Update) (c : This) :
  props (enqueueSetState b u c) = props c.
Proof. by destruct b. Qed.

Lemma manager_enqueue (b : bool) (u : Update) (c : This) :
  manager (enqueueSetState b u c) = manager c.
Proof. by destruct b. Qed.

Lemma iframe_enqueue (b : bool) (u : Update) (c : This) :
  iframe (enqueueSetState b u c) = iframe c.
Proof. by destruct b. Qed.

(** Outside a batch the update is in [this.state] when [setState]
    returns, and nothing is left in the queue. *)
Lemma enqueue_unbatched (u : Update) (c : This) :
  state (enqueueSetState false u c) = applyUpdate (nextState c) u ∧
  pending (enqueueSetState false u c) = [].
Proof. done. Qed.

Lemma setState_run (b : bool) (u : Update) (c : This) :
  setState b u c = (Normal tt, enqueueSetState b u c, []).
Proof. reflexivity. Qed.

(** ** [updateFiles] *)

Lemma updateFiles_run (b : bool) (files : IFiles) (c : This) :
  let c' := enqueueSetState b (Partial (SetFiles files)) c in
  updateFiles b files c =
  (Normal tt, c', file_change_events c' files ++ preview_events c' files).
Proof.
  unfold updateFiles, bind, this, emit, ret, file_change_events, preview_events.
  rewrite setState_run. simpl.
  destruct (Props.onFileChange _); destruct (manager _); reflexivity.
Qed.

(** ** [handleMessage] *)

Lemma handleMessage_state (b : bool) (m : Message.t) (c : This) :
  Message.type m = JsString "state" →
  handleMessage b m c =
  (Normal tt, enqueueSetState b (Partial (SetManagerState (Message.state m))) c, []).
Proof. intros Hm. unfold handleMessage. by rewrite Hm. Qed.

Lemma handleMessage_start (b : bool) (m : Message.t) (c : This) :
  Message.type m = JsString "start" →
  handleMessage b m c = (Normal tt, enqueueSetState b (Partial (SetErrors [])) c, []).
Proof. intros Hm. unfold handleMessage. by rewrite Hm. Qed.

Lemma handleMessage_status (b : bool) (m : Message.t) (c : This) :
  Message.type m = JsString "status" →
  handleMessage b m c =
  (Normal tt, enqueueSetState b (Partial (SetStatus (Message.status m))) c, []).
Proof. intros Hm. unfold handleMessage. by rewrite Hm. Qed.

Lemma handleMessage_show_error (b : bool) (m : Message.t) (c : This) :
  Message.type m = JsString "action" →
  Message.action m = JsString "show-error" →
  handleMessage b m c =
  (Normal tt,
   enqueueSetState b
     (Updater (λ state, SetErrors (State.errors state ++ [moduleError m]))) c,
   []).
Proof. intros Hm Ha. unfold handleMessage. by rewrite Hm, Ha. Qed.

Lemma handleMessage_other (b : bool) (m : Message.t) (c : This) :
  Message.type m ≠ JsString "state" →
  Message.type m ≠ JsString "start" →
  Message.type m ≠ JsString "status" →
  ¬ (Message.type m = JsString "action" ∧ Message.action m = JsString "show-error") →
  handleMessage b m c = (Normal tt, c, []).
Proof.
  intros H1 H2 H3 H4. unfold handleMessage.
  rewrite !bool_decide_eq_false_2 by done.
  destruct (bool_decide (Message.type m = JsString "action")) eqn:Ht;
    destruct (bool_decide (Message.action m = JsString "show-error")) eqn:Ha;
    try reflexivity.
  apply bool_decide_eq_true in Ht, Ha. by destruct H4.
Qed.

(** C6: whatever the error sequence holds, a 'start' message leaves the
    provider with an empty error sequence once React has applied the
    update, and with every other field of the state as it would have
    been; the handler returns normally, calls nothing outside, and
    leaves the properties and the engine handle alone. *)
Theorem C6_start_empties_errors (b : bool) (m : Message.t) (c : This) :
  Message.type m = JsString "start" →
  ∃ c',
    handleMessage b m c = (Normal tt, c', []) ∧
    State.errors (nextState c') = [] ∧
    nextState c' =
      State.mk (State.files (nextState c)) (State.browserPath (nextState c))
        (State.openedPath (nextState c)) (State.iframe (nextState c))
        (State.managerState (nextState c)) [] (State.status (nextState c)) ∧
    props c' = props c ∧ manager c' = manager c ∧ iframe c' = iframe c.
Proof.
  intros Hm. eexists. split; [by apply handleMessage_start |].
  rewrite nextState_enqueue, props_enqueue, manager_enqueue, iframe_enqueue.
  done.
Qed.

(** The provider after one reported error. *)
Lemma C6_witness :
  Message.type start_message = JsString "start" ∧
  State.errors
    (nextState (completed (handleMessage false (show_error 3) sample_constructed)))
  = [moduleError (show_error 3)] ∧
  ∃ c',
    handleMessage true start_message
      (completed (handleMessage false (show_error 3) sample_constructed))
    = (Normal tt, c', []) ∧
    State.errors (nextState c') = [].
Proof.
  split; [reflexivity |]. split; [reflexivity |].
  destruct (C6_start_empties_errors true start_message
              (completed (handleMessage false (show_error 3) sample_constructed))
              eq_refl) as (c' & Hrun & Herrors & _).
  exists c'. split; [exact Hrun | exact Herrors].
Defined.

(** C9: a message whose type is none of 'state', 'start' and 'status',
    and which is not an 'action' message with action 'show-error',
    leaves the instance as it is (state, queue, properties, engine
    handle), calls nothing outside and returns normally. *)
Theorem C9_other_messages_ignored (b : bool) (m : Message.t) (c : This) :
  Message.type m ≠ JsString "state" →
  Message.type m ≠ JsString "start" →
  Message.type m ≠ JsString "status" →
  ¬ (Message.type m = JsString "action" ∧ Message.action m = JsString "show-error") →
  handleMessage b m c = (Normal tt, c, []).
Proof. apply handleMessage_other. Qed.

Lemma C9_witness :
  Message.type resize_message = JsString "resize" ∧
  handleMessage false resize_message sample_mounted = (Normal tt, sample_mounted, []).
Proof.
  split; [reflexivity |].
  apply (C9_other_messages_ignored false resize_message sample_mounted);
    try discriminate.
  intros [Ht _]. discriminate Ht.
Defined.

(** C7: each 'action' message with action 'show-error' appends exactly
    one module error to the end of the sequence, and that error holds
    the title, path, message, line and column the message reported; so
    from an empty sequence two such messages in a row leave the two
    reported errors, the first message's first. *)
Theorem C7_errors_in_arrival_order (b1 b2 : bool) (m1 m2 : Message.t) (c : This) :
  Message.type m1 = JsString "action" → Message.action m1 = JsString "show-error" →
  Message.type m2 = JsString "action" → Message.action m2 = JsString "show-error" →
  State.errors (nextState c) = [] →
  ∃ c1 c2,
    handleMessage b1 m1 c = (Normal tt, c1, []) ∧
    handleMessage b2 m2 c1 = (Normal tt, c2, []) ∧
    State.errors (nextState c1) =
      State.errors (nextState c) ++
      [{| title := Message.title m1; path := Message.path m1;
          message := Message.message m1; line := Message.line m1;
          column := Message.column m1 |}] ∧
    State.errors (nextState c2) =
      State.errors (nextState c1) ++
      [{| title := Message.title m2; path := Message.path m2;
          message := Message.message m2; line := Message.line m2;
          column := Message.column m2 |}] ∧
    State.errors (nextState c2) =
      [{| title := Message.title m1; path := Message.path m1;
          message := Message.message m1; line := Message.line m1;
          column := Message.column m1 |};
       {| title := Message.title m2; path := Message.path m2;
          message := Message.message m2; line := Message.line m2;
          column := Message.column m2 |}] ∧
    length (State.errors (nextState c2)) = 2.
Proof.
  intros Ht1 Ha1 Ht2 Ha2 Hempty.
  eexists _, _. split; [by apply handleMessage_show_error |].
  split; [by apply handleMessage_show_error |].
  rewrite !nextState_enqueue. simpl. unfold moduleError. by rewrite Hempty.
Qed.

(** Two reports that differ in their line: the error of line 3 comes
    before the error of line 8. *)
Lemma C7_witness :
  ∃ c1 c2,
    handleMessage false (show_error 3) sample_mounted = (Normal tt, c1, []) ∧
    handleMessage false (show_error 8) c1 = (Normal tt, c2, []) ∧
    State.errors (state c2) =
      [{| title := JsString "SyntaxError"; path := JsString "/index.js";
          message := JsString "Unexpected token"; line := JsNumber 3;
          column := JsNumber 1 |};
       {| title := JsString "SyntaxError"; path := JsString "/index.js";
          message := JsString "Unexpected token"; line := JsNumber 8;
          column := JsNumber 1 |}].
Proof.
  destruct (C7_errors_in_arrival_order false false (show_error 3) (show_error 8)
              sample_mounted eq_refl eq_refl eq_refl eq_refl eq_refl)
    as (c1 & c2 & H1 & H2 & _ & _ & H & _).
  exists c1, c2. split; [exact H1 |]. split; [exact H2 |].
  injection H2 as <-. exact H.
Defined.

(** ** [updateCurrentFile] *)

Lemma updateCurrentFile_run (b : bool) (file : IFile) (c : This) :
  updateCurrentFile b file c =
  if bool_decide (code file ≠ openedCode (state c))
  then updateFiles b (<[State.openedPath (state c) := file]> (State.files (state c))) c
  else (Normal tt, c, []).
Proof.
  unfold updateCurrentFile, bind, this. simpl.
  destruct (bool_decide (code file ≠ openedCode (state c))); [|done].
  destruct (updateFiles b _ c) as [[r c'] evs]. by destruct r.
Qed.

(** C5: when a file is at the open path and the file given has the same
    content, [updateCurrentFile] returns with the instance as it was
    (state, queue, properties, engine handle) and without any call to
    the engine or to the change callback. *)
Theorem C5_same_content_no_effect (b : bool) (file f : IFile) (c : This) :
  State.files (state c) !! State.openedPath (state c) = Some f →
  code file = code f →
  updateCurrentFile b file c = (Normal tt, c, []).
Proof.
  intros Hf Hcode. rewrite updateCurrentFile_run.
  unfold openedCode. rewrite Hf, Hcode.
  by rewrite bool_decide_eq_false_2 by (intros H; by apply H).
Qed.

Lemma C5_witness :
  State.files (state sample_mounted) !! State.openedPath (state sample_mounted)
  = Some {| code := Some "console.log(1)" |} ∧
  updateCurrentFile true {| code := Some "console.log(1)" |} sample_mounted
  = (Normal tt, sample_mounted, []).
Proof.
  split; [reflexivity |].
  apply (C5_same_content_no_effect true _ {| code := Some "console.log(1)" |});
    reflexivity.
Defined.

(** C10: when no file is at the open path, [updateCurrentFile] with a
    file whose content is defined does what [updateFiles] does with the
    stored files plus that file at the open path: the comparison is
    with the [undefined] content of the missing entry, so it never
    short-circuits; the call returns normally and the file is in the
    mapping once the update is applied. *)
Theorem C10_dangling_path_inserts (b : bool) (file : IFile) (content : string) (c : This) :
  State.files (state c) !! State.openedPath (state c) = None →
  code file = Some content →
  openedCode (state c) = None ∧
  ∃ c',
    updateCurrentFile b file c =
      updateFiles b (<[State.openedPath (state c) := file]> (State.files (state c))) c ∧
    completion (updateCurrentFile b file c) = Normal tt ∧
    completed (updateCurrentFile b file c) = c' ∧
    State.files (nextState c') =
      <[State.openedPath (state c) := file]> (State.files (state c)) ∧
    State.files (nextState c') !! State.openedPath (state c) = Some file.
Proof.
  intros Hnone Hcode.
  assert (openedCode (state c) = None) as Hopened by (unfold openedCode; by rewrite Hnone).
  split; [done |]. eexists. rewrite updateCurrentFile_run, Hopened, Hcode.
  rewrite bool_decide_eq_true_2 by done.
  rewrite updateFiles_run. cbv zeta. unfold completion, completed. simpl.
  rewrite nextState_enqueue. simpl.
  repeat split; try reflexivity. apply lookup_insert_eq.
Qed.

(** The sample provider with the editor pointed at a path without a file. *)
Lemma C10_witness :
  let c := completed (openFile false "/missing.js" sample_mounted) in
  State.files (state c) !! State.openedPath (state c) = None ∧
  State.files
    (state (completed (updateCurrentFile false {| code := Some "x" |} c)))
    !! "/missing.js" = Some {| code := Some "x" |}.
Proof.
  intros c.
  destruct (C10_dangling_path_inserts false {| code := Some "x" |} "x" c
              eq_refl eq_refl) as (_ & c' & _ & _ & <- & _ & Hfile).
  split; [reflexivity |]. exact Hfile.
Defined.

(** A file without content is not inserted at a dangling path: the
    comparison of [undefined] with [undefined] short-circuits. *)
Lemma updateCurrentFile_undefined_content (b : bool) (file : IFile) (c : This) :
  State.files (state c) !! State.openedPath (state c) = None →
  code file = None →
  updateCurrentFile b file c = (Normal tt, c, []).
Proof.
  intros Hnone Hcode. rewrite updateCurrentFile_run.
  unfold openedCode. rewrite Hnone, Hcode.
  by rewrite bool_decide_eq_false_2 by (intros H; by apply H).
Qed.

(** ** [createMissingPackageJSON] and the constructor *)

Lemma createMissingPackageJSON_present (files : IFiles) dependencies entry :
  has_package_json files →
  createMissingPackageJSON files dependencies entry = Normal files.
Proof. intros [f Hf]. unfold createMissingPackageJSON. by rewrite Hf. Qed.

Lemma createMissingPackageJSON_has_package_json (files newFiles : IFiles)
    dependencies entry :
  createMissingPackageJSON files dependencies entry = Normal newFiles →
  has_package_json newFiles.
Proof.
  unfold createMissingPackageJSON, has_package_json.
  destruct (files !! "/package.json") as [f|] eqn:Hf.
  - intros [= <-]. by rewrite Hf.
  - destruct dependencies as [deps|]; [|done].
    destruct entry as [entry|]; [|done].
    destruct (decide (entry = EmptyString)); [done |].
    intros [= <-]. by rewrite lookup_insert_eq.
Qed.

(** C4: when the files have no '/package.json' and the dependencies or
    the entry are absent, the constructor throws a configuration error
    and has called nothing outside by then: no listener is registered,
    no manager is made, nothing is sent to the engine, and no provider
    instance results. *)
Theorem C4_constructor_throws (props : Props.t) :
  deref (Props.files props) !! "/package.json" = None →
  Props.dependencies props = None ∨ Props.entry props = None →
  constructor props =
  (Throw (Error (match Props.dependencies props with
                 | None => no_dependencies
                 | Some _ => no_entry
                 end)), []).
Proof.
  intros Hnone Habsent. unfold constructor, createMissingPackageJSON.
  rewrite Hnone.
  destruct (Props.dependencies props) as [deps|]; simpl; [|done].
  destruct Habsent as [|Hentry]; [done |]. by rewrite Hentry.
Qed.

Lemma C4_witness :
  deref (Props.files sample_props_bare) !! "/package.json" = None ∧
  constructor sample_props_bare = (Throw (Error no_dependencies), []).
Proof.
  split; [reflexivity |].
  apply (C4_constructor_throws sample_props_bare); [reflexivity | left; reflexivity].
Defined.

(** An empty entry fails the same way: the empty string is falsy. *)
Lemma createMissingPackageJSON_empty_entry (files : IFiles) (deps : Dependencies) :
  files !! "/package.json" = None →
  ∃ msg, createMissingPackageJSON files (Some deps) (Some EmptyString)
         = Throw (Error msg).
Proof. intros Hnone. unfold createMissingPackageJSON. rewrite Hnone. by eexists. Qed.

(** The layout of a descriptor text, line by line. *)
Example descriptor_text :
  JSON.stringify (descriptor [("react", "16.8.0"); ("lodash", "4.17.15")] "/index.js") 2 =
  "{" +:+ br +:+
  "  " +:+ quoted "name" +:+ ": " +:+ quoted "run" +:+ "," +:+ br +:+
  "  " +:+ quoted "main" +:+ ": " +:+ quoted "/index.js" +:+ "," +:+ br +:+
  "  " +:+ quoted "dependencies" +:+ ": {" +:+ br +:+
  "    " +:+ quoted "react" +:+ ": " +:+ quoted "16.8.0" +:+ "," +:+ br +:+
  "    " +:+ quoted "lodash" +:+ ": " +:+ quoted "4.17.15" +:+ br +:+
  "  }" +:+ br +:+
  "}".
Proof. reflexivity. Qed.

Example descriptor_text_no_dependencies :
  JSON.stringify (descriptor [] "/index.js") 2 =
  "{" +:+ br +:+
  "  " +:+ quoted "name" +:+ ": " +:+ quoted "run" +:+ "," +:+ br +:+
  "  " +:+ quoted "main" +:+ ": " +:+ quoted "/index.js" +:+ "," +:+ br +:+
  "  " +:+ quoted "dependencies" +:+ ": {}" +:+ br +:+
  "}".
Proof. reflexivity. Qed.

(** C3: for files without '/package.json', any supplied dependencies
    (empty or not) and a non-empty entry, [createMissingPackageJSON]
    returns a mapping whose '/package.json' holds a JSON text that
    denotes an object with [main] equal to the entry and
    [dependencies] equal to the object of the supplied pairs, each
    value a string, in their order; every other path maps as before. *)
Theorem C3_descriptor_synthesized (files : IFiles) (dependencies : Dependencies)
    (entry : string) :
  files !! "/package.json" = None →
  entry ≠ EmptyString →
  ∃ newFiles text parsed,
    createMissingPackageJSON files (Some dependencies) (Some entry) = Normal newFiles ∧
    newFiles !! "/package.json" = Some {| code := Some text |} ∧
    JSON.parse text = Some parsed ∧
    JSON.get "main" parsed = Some (JSON.Str entry) ∧
    JSON.get "dependencies" parsed =
      Some (JSON.Obj (map (λ kv, (kv.1, JSON.Str kv.2)) dependencies)) ∧
    (∀ path, path ≠ "/package.json" → newFiles !! path = files !! path).
Proof.
  intros Hnone Hentry. unfold createMissingPackageJSON. rewrite Hnone.
  destruct (decide (entry = EmptyString)) as [|_]; [done |].
  eexists _, _, _. split; [reflexivity |].
  split; [apply lookup_insert_eq |].
  split; [apply JSONFacts.parse_stringify |].
  split; [reflexivity |]. split; [reflexivity |].
  intros path Hpath. by apply lookup_insert_ne.
Qed.

Lemma C3_witness :
  sample_files !! "/package.json" = None ∧
  ∃ newFiles text parsed,
    createMissingPackageJSON sample_files (Some sample_dependencies) (Some "/index.js")
    = Normal newFiles ∧
    newFiles !! "/package.json" = Some {| code := Some text |} ∧
    JSON.parse text = Some parsed ∧
    JSON.get "main" parsed = Some (JSON.Str "/index.js") ∧
    JSON.get "dependencies" parsed =
      Some (JSON.Obj [("react", JSON.Str "16.8.0"); ("react-dom", JSON.Str "16.8.0")]) ∧
    newFiles !! "/index.js" = sample_files !! "/index.js".
Proof.
  split; [reflexivity |].
  destruct (C3_descriptor_synthesized sample_files sample_dependencies "/index.js"
              eq_refl ltac:(discriminate))
    as (newFiles & text & parsed & Hrun & Hpkg & Hparse & Hmain & Hdeps & Hrest).
  exists newFiles, text, parsed.
  repeat (split; [assumption |]). apply Hrest. discriminate.
Defined.

(** ** [componentDidUpdate] *)

Lemma componentDidUpdate_run (b : bool) (prev : Props.t) (c : This) :
  componentDidUpdate b prev c =
  if resync_needed prev (props c) then
    match createMissingPackageJSON (deref (Props.files (props c)))
            (deref <$> Props.dependencies (props c)) (Props.entry (props c)) with
    | Normal newFiles =>
        let c' := enqueueSetState b (Partial (SetFiles newFiles)) c in
        (Normal tt, c',
         (file_change_events c' newFiles ++ preview_events c' newFiles) ++
         options_events prev c')
    | Throw e => (Throw e, c, [])
    end
  else (Normal tt, c, options_events prev c).
Proof.
  unfold componentDidUpdate, resync_needed, options_events, bind, this, lift, emit, ret.
  simpl.
  destruct (_ || _ || _ || _).
  - destruct (createMissingPackageJSON _ _ _) as [newFiles|e]; [|done].
    rewrite updateFiles_run. cbv zeta. simpl.
    rewrite manager_enqueue, props_enqueue.
    destruct (manager c); [|done].
    by destruct (bool_decide _).
  - destruct (manager c); [|done]. by destruct (bool_decide _).
Qed.

Lemma bool_decide_ne_refl `{EqDecision A} (x : A) : bool_decide (x ≠ x) = false.
Proof. apply bool_decide_eq_false_2. intros H. by apply H. Qed.

Lemma ref_differs_same {A} (a b : option (Ref A)) :
  addr <$> a = addr <$> b → ref_differs a b = false.
Proof.
  destruct a, b; simpl; try done.
  intros [= H]. by rewrite bool_decide_eq_false_2 by (intros Hne; by apply Hne).
Qed.

(** After a state update React calls [componentDidUpdate] with the
    properties the provider already has: nothing happens. *)
Lemma componentDidUpdate_same_props (b : bool) (c : This) :
  componentDidUpdate b (props c) c = (Normal tt, c, []).
Proof.
  rewrite componentDidUpdate_run. unfold resync_needed, options_events.
  rewrite ref_differs_same by done.
  rewrite !bool_decide_ne_refl. simpl.
  by destruct (manager c).
Qed.

Lemma update_run (b : bool) (newProps : Props.t) (c : This) :
  update b newProps c =
  componentDidUpdate b (props c)
    (mkThis newProps (nextState c) [] (manager c) (iframe c)).
Proof.
  unfold update, bind, this, modify. simpl.
  destruct (componentDidUpdate b (props c) _) as [[r c'] evs]. by destruct r.
Qed.

(** ** The life of a provider *)

Lemma handleMessage_frame (b : bool) (m : Message.t) (c : This) :
  ∃ c', handleMessage b m c = (Normal tt, c', []) ∧
        (c' = c ∨ ∃ u, c' = enqueueSetState b u c ∧
                       ∀ s, State.files (applyUpdate s u) = State.files s).
Proof.
  unfold handleMessage.
  do 3 (destruct (bool_decide _); [eexists; split; [reflexivity | right; by eexists] |]).
  destruct (_ && _).
  - eexists; split; [reflexivity | right; by eexists].
  - eexists; split; [reflexivity | by left].
Qed.

Lemma perform_frame (b : bool) (call : Call) (c c' : This) r evs :
  perform b call c = (r, c', evs) →
  props c' = props c ∧ manager c' = manager c ∧ iframe c' = iframe c.
Proof.
  destruct call as [m|files|file|path]; simpl.
  - destruct (handleMessage_frame b m c) as (c1 & -> & [->|(u & -> & _)]);
      intros [= <- <- <-]; [done |].
    by rewrite props_enqueue, manager_enqueue, iframe_enqueue.
  - rewrite updateFiles_run. intros [= <- <- <-].
    by rewrite props_enqueue, manager_enqueue, iframe_enqueue.
  - rewrite updateCurrentFile_run. destruct (bool_decide _).
    + rewrite updateFiles_run. intros [= <- <- <-].
      by rewrite props_enqueue, manager_enqueue, iframe_enqueue.
    + by intros [= <- <- <-].
  - unfold openFile. rewrite setState_run. intros [= <- <- <-].
    by rewrite props_enqueue, manager_enqueue, iframe_enqueue.
Qed.

Lemma update_manager (b : bool) (newProps : Props.t) (c c' : This) r evs :
  update b newProps c = (r, c', evs) → manager c' = manager c.
Proof.
  rewrite update_run, componentDidUpdate_run.
  destruct (resync_needed _ _).
  - destruct (createMissingPackageJSON _ _ _); cbv zeta; intros [= <- <- <-];
      [by rewrite manager_enqueue | done].
  - by intros [= <- <- <-].
Qed.

Lemma setupFrame_run (b : bool) (el : HTMLIFrameElement) (c : This) :
  setupFrame b (Some el) c =
  (Normal tt,
   enqueueSetState b (Partial (SetIframe (Some el)))
     (mkThis (props c) (state c) (pending c)
        (Some {| manager_iframe := el; manager_options := getOptions c |})
        (Some el)),
   [NewManager el (deref (Props.files (props c)))
      (deref <$> Props.dependencies (props c)) (Props.entry (props c))
      (Props.template (props c)) (Props.showOpenInCodeSandbox (props c))
      (getOptions c)]).
Proof. reflexivity. Qed.

(** A mounted provider has its engine handle: the reference callback
    made it, and nothing removes it. *)
Lemma mounted_has_manager (accepts : IFiles → Prop) (phase : Phase) (c : This) :
  lifecycle accepts phase c → phase = Mounted → is_Some (manager c).
Proof.
  induction 1 as [props c evs Hc|b el c c' evs Hc IH Hrun|b phase call c c' evs Hc IH Hok Hrun
                 |b newProps c c' evs Hc IH Hrun|b c c1 c2 evs1 evs2 Hc IH H1 H2];
    intros Hphase; try discriminate.
  - rewrite setupFrame_run in Hrun. injection Hrun as <- _.
    rewrite manager_enqueue. by eexists.
  - apply perform_frame in Hrun as (_ & -> & _). auto.
  - apply update_manager in Hrun as ->. auto.
Qed.

Lemma sample_constructed_life (accepts : IFiles → Prop) :
  lifecycle accepts Constructed sample_constructed.
Proof. by apply (life_constructor accepts sample_props sample_constructed [Listen]). Qed.

Lemma sample_mounted_life (accepts : IFiles → Prop) :
  lifecycle accepts Mounted sample_mounted.
Proof.
  eapply (life_mount accepts false 5 sample_constructed);
    [apply sample_constructed_life | reflexivity].
Qed.

(** C8: on a mounted provider, an update of the properties in which the
    files and the dependencies are the same objects, the entry and the
    template are the same and the eval-skip flag differs makes exactly
    one call outside, [updateOptions] on the manager with the options
    of the new properties; no file set is queued or sent, and the call
    returns normally. *)
Theorem C8_skipEval_updates_options_only (accepts : IFiles → Prop) (b : bool)
    (newProps : Props.t) (c : This) :
  lifecycle accepts Mounted c →
  addr (Props.files newProps) = addr (Props.files (props c)) →
  addr <$> Props.dependencies newProps = addr <$> Props.dependencies (props c) →
  Props.entry newProps = Props.entry (props c) →
  Props.template newProps = Props.template (props c) →
  Props.skipEval newProps ≠ Props.skipEval (props c) →
  ∃ m,
    manager c = Some m ∧
    update b newProps c =
    (Normal tt,
     mkThis newProps (nextState c) [] (Some m) (iframe c),
     [UpdateOptions m
        {| opt_bundlerURL := Props.bundlerURL newProps;
           opt_fileResolver := Props.fileResolver newProps;
           opt_skipEval := Props.skipEval newProps |}]).
Proof.
  intros Hlife Hfiles Hdeps Hentry Htemplate Hskip.
  destruct (mounted_has_manager _ _ _ Hlife eq_refl) as [m Hm].
  exists m. split; [done |].
  rewrite update_run, componentDidUpdate_run.
  unfold resync_needed, options_events. simpl.
  rewrite ref_differs_same by done.
  rewrite Hfiles, Hentry, Htemplate, !bool_decide_ne_refl. simpl.
  rewrite Hm. by rewrite bool_decide_eq_true_2.
Qed.

Lemma C8_witness :
  lifecycle any_files Mounted sample_mounted ∧
  ∃ m,
    manager sample_mounted = Some m ∧
    update true sample_props_skipEval sample_mounted =
    (Normal tt,
     mkThis sample_props_skipEval (nextState sample_mounted) [] (Some m)
       (iframe sample_mounted),
     [UpdateOptions m
        {| opt_bundlerURL := None; opt_fileResolver := None; opt_skipEval := true |}]).
Proof.
  split; [apply sample_mounted_life |].
  apply (C8_skipEval_updates_options_only any_files true sample_props_skipEval
           sample_mounted (sample_mounted_life any_files));
    try reflexivity.
  discriminate.
Defined.

(** Before the iframe is attached there is no manager, and the same
    update calls nothing. *)
Lemma componentDidUpdate_no_manager (b : bool) (prev : Props.t) (c : This) :
  manager c = None → resync_needed prev (props c) = false →
  componentDidUpdate b prev c = (Normal tt, c, []).
Proof.
  intros Hm Hsame. rewrite componentDidUpdate_run, Hsame.
  unfold options_events. by rewrite Hm.
Qed.

(** C2, as the code has it: [updateFiles] returns normally; the file
    set given is the stored one once the update is applied; the change
    callback is called exactly once when it is configured, with the
    file set given and the value of [_getSandpackState]; the engine's
    [updatePreview] is called exactly once, with the file set given,
    when the manager exists, and not at all before it exists. These
    are the only calls, in this order. *)
Theorem C2_updateFiles_effects (b : bool) (files : IFiles) (c : This) :
  ∃ c',
    updateFiles b files c =
      (Normal tt, c',
       match Props.onFileChange (props c) with
       | Some onFileChange => [FileChange onFileChange files (_getSandpackState c')]
       | None => []
       end ++
       match manager c with
       | Some m =>
           [UpdatePreview m
              {| info_showOpenInCodeSandbox := Props.showOpenInCodeSandbox (props c);
                 info_files := files;
                 info_template := Props.template (props c) |}]
       | None => []
       end) ∧
    State.files (nextState c') = files ∧
    length (List.filter is_UpdatePreview (trace (updateFiles b files c)))
      = match manager c with Some _ => 1 | None => 0 end ∧
    length (List.filter is_FileChange (trace (updateFiles b files c)))
      = match Props.onFileChange (props c) with Some _ => 1 | None => 0 end ∧
    props c' = props c ∧ manager c' = manager c.
Proof.
  exists (enqueueSetState b (Partial (SetFiles files)) c).
  rewrite updateFiles_run. cbv zeta.
  unfold file_change_events, preview_events, trace.
  rewrite nextState_enqueue, props_enqueue, manager_enqueue.
  destruct (Props.onFileChange (props c)), (manager c); repeat split; reflexivity.
Qed.

(** On the mounted sample provider with a change callback, in an event
    handler: the callback first, with the state as [this.state] still
    has it, then the engine. *)
Example updateFiles_sample :
  trace (updateFiles true ∅ sample_mounted_callback) =
  [FileChange 7 ∅ (_getSandpackState sample_mounted_callback);
   UpdatePreview
     {| manager_iframe := 5;
        manager_options :=
          {| opt_bundlerURL := None; opt_fileResolver := None; opt_skipEval := false |} |}
     {| info_showOpenInCodeSandbox := None; info_files := ∅; info_template := None |}].
Proof. reflexivity. Qed.

(** C2 fails before the iframe is attached: the provider constructed
    from the sample properties has no manager yet, and [updateFiles]
    on it makes no engine call at all. *)
Lemma C2_no_preview_before_mount :
  lifecycle any_files Constructed sample_constructed ∧
  trace (updateFiles true sample_files sample_constructed) = [] ∧
  length (List.filter is_UpdatePreview
            (trace (updateFiles true sample_files sample_constructed))) ≠ 1.
Proof.
  split; [apply sample_constructed_life |]. split; [reflexivity | discriminate].
Qed.

(** ** The package descriptor in the file mapping *)

Lemma keeps_same_files (u : Update) :
  (∀ s, State.files (applyUpdate s u) = State.files s) → keeps_package_json u.
Proof. intros Hsame s Hs. by rewrite Hsame. Qed.

Lemma keeps_SetFiles (files : IFiles) :
  has_package_json files → keeps_package_json (Partial (SetFiles files)).
Proof. intros Hfiles s _. exact Hfiles. Qed.

Lemma foldl_keeps (us : list Update) (s : State.t) :
  has_package_json (State.files s) → Forall keeps_package_json us →
  has_package_json (State.files (foldl applyUpdate s us)).
Proof.
  intros Hs Hus. revert s Hs.
  induction Hus as [|u us Hu Hus IH]; intros s Hs; simpl; [done |].
  apply IH, Hu, Hs.
Qed.

Lemma nextState_kept (c : This) :
  package_json_kept c → has_package_json (State.files (nextState c)).
Proof. intros [Hs Hus]. by apply foldl_keeps. Qed.

Lemma enqueue_kept (b : bool) (u : Update) (c : This) :
  package_json_kept c → keeps_package_json u →
  package_json_kept (enqueueSetState b u c).
Proof.
  intros Hc Hu. destruct b; simpl.
  - destruct Hc as [Hs Hus]. split; [done |].
    apply Forall_app. split; [done | by apply Forall_singleton].
  - split; [|by apply Forall_nil]. simpl. apply Hu. by apply nextState_kept.
Qed.

Lemma insert_has_package_json (files : IFiles) (path : string) (file : IFile) :
  has_package_json files → has_package_json (<[path := file]> files).
Proof.
  intros [f Hf]. unfold has_package_json.
  destruct (decide (path = "/package.json")) as [->|Hne].
  - rewrite lookup_insert_eq. by eexists.
  - rewrite lookup_insert_ne by done. by eexists.
Qed.

Lemma perform_kept (b : bool) (call : Call) (c c' : This) r evs :
  package_json_kept c →
  (∀ files, direct_files call = Some files → has_package_json files) →
  perform b call c = (r, c', evs) →
  package_json_kept c'.
Proof.
  intros Hc Hok. destruct call as [m|files|file|path]; simpl.
  - destruct (handleMessage_frame b m c) as (c1 & -> & [->|(u & -> & Hu)]);
      intros [= <- <- <-]; [done |].
    by apply enqueue_kept, keeps_same_files.
  - rewrite updateFiles_run. intros [= <- <- <-].
    apply enqueue_kept, keeps_SetFiles; [done |]. by apply Hok.
  - rewrite updateCurrentFile_run. destruct (bool_decide _).
    + rewrite updateFiles_run. intros [= <- <- <-].
      apply enqueue_kept, keeps_SetFiles; [done |].
      apply insert_has_package_json, Hc.
    + by intros [= <- <- <-].
  - unfold openFile. rewrite setState_run. intros [= <- <- <-].
    by apply enqueue_kept, keeps_same_files.
Qed.

Lemma update_kept (b : bool) (newProps : Props.t) (c c' : This) evs :
  package_json_kept c →
  update b newProps c = (Normal tt, c', evs) →
  package_json_kept c'.
Proof.
  intros Hc. rewrite update_run, componentDidUpdate_run.
  assert (package_json_kept (mkThis newProps (nextState c) [] (manager c) (iframe c)))
    as Hflushed by (split; [by apply nextState_kept | by apply Forall_nil]).
  destruct (resync_needed _ _).
  - destruct (createMissingPackageJSON _ _ _) as [newFiles|e] eqn:Hnew; [|done].
    cbv zeta. intros [= <- <-].
    apply enqueue_kept, keeps_SetFiles; [done |].
    by eapply createMissingPackageJSON_has_package_json.
  - by intros [= <- <-].
Qed.

Lemma lifecycle_kept (phase : Phase) (c : This) :
  lifecycle has_package_json phase c → package_json_kept c.
Proof.
  induction 1 as [props c evs Hc|b el c c' evs Hc IH Hrun|b phase call c c' evs Hc IH Hok Hrun
                 |b newProps c c' evs Hc IH Hrun|b c c1 c2 evs1 evs2 Hc IH H1 H2].
  - unfold constructor in Hc.
    destruct (createMissingPackageJSON _ _ _) as [files|e] eqn:Hfiles; [|done].
    injection Hc as <- _. split; [|by apply Forall_nil].
    by eapply createMissingPackageJSON_has_package_json.
  - rewrite setupFrame_run in Hrun. injection Hrun as <- _.
    by apply enqueue_kept, keeps_same_files.
  - by eapply perform_kept.
  - by eapply update_kept.
  - injection H1 as <- _. by injection H2 as <- _.
Qed.

(** C1, as the code has it: in every state a provider reaches through
    construction, the message handler, [openFile], [updateCurrentFile],
    the iframe reference callback, property updates, unmounting and
    calls of [updateFiles] by descendants with file sets that contain
    '/package.json', the file mapping has an entry at '/package.json',
    in [this.state] and in the state React will commit. *)
Theorem C1_package_json_invariant (phase : Phase) (c : This) :
  lifecycle has_package_json phase c →
  has_package_json (State.files (state c)) ∧
  has_package_json (State.files (nextState c)).
Proof.
  intros Hlife. apply lifecycle_kept in Hlife.
  split; [apply Hlife | by apply nextState_kept].
Qed.

Lemma C1_witness :
  lifecycle has_package_json Mounted sample_mounted ∧
  has_package_json (State.files (state sample_mounted)) ∧
  has_package_json (State.files (nextState sample_mounted)).
Proof.
  split; [apply sample_mounted_life |].
  apply (C1_package_json_invariant Mounted sample_mounted (sample_mounted_life _)).
Defined.

(** [updateFiles] stores what it is given: the descriptor is in the
    mapping afterwards exactly when it is in the argument. *)
Lemma updateFiles_package_json (b : bool) (files : IFiles) (c : This) :
  has_package_json (State.files (nextState (completed (updateFiles b files c))))
  ↔ has_package_json files.
Proof.
  rewrite updateFiles_run. cbv zeta. unfold completed. simpl.
  by rewrite nextState_enqueue.
Qed.

(** C1 fails when a descendant gives [updateFiles] a file set without
    a descriptor: the mounted sample provider, after [updateFiles] with
    the empty file set and React's commit of that update, is a state a
    provider reaches, and its file mapping has no '/package.json'. *)
Lemma C1_updateFiles_drops_package_json :
  lifecycle any_files Mounted sample_emptied ∧
  State.files (state sample_emptied) !! "/package.json" = None ∧
  ¬ has_package_json (State.files (state sample_emptied)).
Proof.
  split; [|split; [reflexivity | by intros [f Hf]]].
  eapply (life_update any_files true sample_props
            (completed (updateFiles true ∅ sample_mounted)) sample_emptied);
    [|reflexivity].
  eapply (life_call any_files true Mounted (CallUpdateFiles ∅) sample_mounted);
    [apply sample_mounted_life | done | reflexivity].
Qed.

(** * Further properties of the provider *)

(** ** Construction *)

(** X1: files that bring their own '/package.json' are taken as they
    are, whatever the dependencies and the entry (missing ones too):
    the constructor returns, registers the listener and nothing else,
    and starts with no error, no manager and the status
    'initializing'. *)
Theorem constructor_keeps_own_descriptor (props0 : Props.t) :
  has_package_json (deref (Props.files props0)) →
  ∃ c,
    constructor props0 = (Normal c, [Listen]) ∧
    State.files (state c) = deref (Props.files props0) ∧
    State.errors (state c) = [] ∧
    State.status (state c) = JsString "initializing" ∧
    State.managerState (state c) = JsUndefined ∧
    State.iframe (state c) = None ∧
    pending c = [] ∧ manager c = None ∧ iframe c = None ∧ props c = props0.
Proof.
  intros Hpkg. unfold constructor.
  rewrite createMissingPackageJSON_present by done.
  eexists. split; [reflexivity |]. by repeat split.
Qed.

Lemma constructor_keeps_own_descriptor_witness :
  has_package_json (deref (Props.files sample_props_own_descriptor)) ∧
  ∃ c,
    constructor sample_props_own_descriptor = (Normal c, [Listen]) ∧
    State.files (state c) !! "/package.json" = Some {| code := Some "{}" |}.
Proof.
  assert (has_package_json (deref (Props.files sample_props_own_descriptor)))
    as Hpkg by (by eexists).
  split; [exact Hpkg |].
  destruct (constructor_keeps_own_descriptor sample_props_own_descriptor Hpkg)
    as (c & Hrun & Hfiles & _).
  exists c. split; [exact Hrun |]. rewrite Hfiles. reflexivity.
Defined.

(** X2: the constructor returns exactly when the files have a
    '/package.json', or dependencies are supplied together with a
    non-empty entry; in every other case it throws. An empty
    dependency object is enough, an empty entry is not. *)
Theorem constructor_returns_iff (props0 : Props.t) :
  (∃ c evs, constructor props0 = (Normal c, evs)) ↔
  has_package_json (deref (Props.files props0)) ∨
  (is_Some (Props.dependencies props0) ∧
   ∃ entry, Props.entry props0 = Some entry ∧ entry ≠ EmptyString).
Proof.
  unfold constructor, createMissingPackageJSON, has_package_json.
  destruct (deref (Props.files props0) !! "/package.json") as [f|] eqn:Hf.
  { split; [intros _; left; by eexists | intros _; by eexists _, _]. }
  destruct (Props.dependencies props0) as [deps|]; simpl.
  - destruct (Props.entry props0) as [entry|].
    + destruct (decide (entry = EmptyString)) as [->|Hne].
      * split; [by intros (c & evs & [=]) |].
        intros [[f' [=]]|(_ & e & [= <-] & He)]. done.
      * split; [|intros _; by eexists _, _].
        intros _. right. split; [by eexists | by exists entry].
    + split; [by intros (c & evs & [=]) |].
      intros [[f' [=]]|(_ & e & [=] & _)].
  - split; [by intros (c & evs & [=]) |].
    intros [[f' [=]]|([d [=]] & _)].
Qed.

(** X3: [createMissingPackageJSON] is idempotent: files it has
    returned are returned unchanged by a second call, whatever the
    dependencies and entry of that call. *)
Theorem createMissingPackageJSON_idempotent (files newFiles : IFiles)
    (dependencies dependencies' : option Dependencies) (entry entry' : option string) :
  createMissingPackageJSON files dependencies entry = Normal newFiles →
  createMissingPackageJSON newFiles dependencies' entry' = Normal newFiles.
Proof.
  intros Hrun. apply createMissingPackageJSON_present.
  by eapply createMissingPackageJSON_has_package_json.
Qed.

Lemma createMissingPackageJSON_idempotent_witness :
  ∃ newFiles,
    createMissingPackageJSON sample_files (Some sample_dependencies) (Some "/index.js")
    = Normal newFiles ∧
    createMissingPackageJSON newFiles None None = Normal newFiles.
Proof.
  eexists. split; [reflexivity |].
  apply (createMissingPackageJSON_idempotent sample_files _
           (Some sample_dependencies) None (Some "/index.js") None).
  reflexivity.
Defined.

Lemma or_else_nonempty (a : option string) (b : string) :
  b ≠ EmptyString → or_else a b ≠ EmptyString.
Proof.
  intros Hb. destruct a as [s|]; simpl; [|done].
  by destruct (decide (s = EmptyString)).
Qed.

(** X4: a constructed provider has a non-empty open path and a
    non-empty browser path: a non-empty [openedPath] property wins,
    then a non-empty entry, then '/index.js'; the browser path is the
    non-empty [initialPath] or '/'. *)
Theorem constructor_paths (props0 : Props.t) (c : This) (evs : list Event) :
  constructor props0 = (Normal c, evs) →
  State.openedPath (state c) ≠ EmptyString ∧
  State.browserPath (state c) ≠ EmptyString ∧
  State.openedPath (state c) =
    or_else (Props.openedPath props0) (or_else (Props.entry props0) "/index.js") ∧
  State.browserPath (state c) = or_else (Props.initialPath props0) "/" ∧
  (∀ p, Props.openedPath props0 = Some p → p ≠ EmptyString →
        State.openedPath (state c) = p).
Proof.
  unfold constructor.
  destruct (createMissingPackageJSON _ _ _) as [files|e]; [|done].
  intros [= <- _]. simpl.
  split; [by apply or_else_nonempty, or_else_nonempty |].
  split; [by apply or_else_nonempty |].
  split; [done |]. split; [done |].
  intros p -> Hp. simpl. by destruct (decide (p = EmptyString)).
Qed.

Lemma constructor_paths_witness :
  constructor sample_props_own_descriptor = (Normal sample_own_constructed, [Listen]) ∧
  State.openedPath (state sample_own_constructed) = "/index.js" ∧
  State.browserPath (state sample_own_constructed) = "/".
Proof.
  split; [reflexivity |].
  destruct (constructor_paths sample_props_own_descriptor sample_own_constructed
              [Listen] eq_refl) as (_ & _ & Hopened & Hbrowser & _).
  split; [exact Hopened | exact Hbrowser].
Defined.

(** ** Messages *)

(** X5: whatever the message, the handler returns normally, calls
    nothing outside, and leaves the files, both paths and the iframe of
    the state alone, as well as the properties and the engine handle:
    a message only ever reaches [managerState], [errors] or [status]. *)
Theorem handleMessage_keeps_files_and_paths (b : bool) (m : Message.t) (c : This) :
  ∃ c',
    handleMessage b m c = (Normal tt, c', []) ∧
    State.files (nextState c') = State.files (nextState c) ∧
    State.openedPath (nextState c') = State.openedPath (nextState c) ∧
    State.browserPath (nextState c') = State.browserPath (nextState c) ∧
    State.iframe (nextState c') = State.iframe (nextState c) ∧
    props c' = props c ∧ manager c' = manager c ∧ iframe c' = iframe c.
Proof.
  unfold handleMessage.
  do 3 (destruct (bool_decide _);
        [eexists; split; [reflexivity |];
         by rewrite nextState_enqueue, props_enqueue, manager_enqueue, iframe_enqueue |]).
  destruct (_ && _); eexists; (split; [reflexivity |]).
  - by rewrite nextState_enqueue, props_enqueue, manager_enqueue, iframe_enqueue.
  - done.
Qed.

(** X6: a 'state' message replaces the manager state by what the
    message carries, also when that is [undefined], and leaves every
    other field of the state as it would have been. *)
Theorem handleMessage_state_replaces_managerState (b : bool) (m : Message.t) (c : This) :
  Message.type m = JsString "state" →
  ∃ c',
    handleMessage b m c = (Normal tt, c', []) ∧
    nextState c' =
      State.mk (State.files (nextState c)) (State.browserPath (nextState c))
        (State.openedPath (nextState c)) (State.iframe (nextState c))
        (Message.state m) (State.errors (nextState c)) (State.status (nextState c)).
Proof.
  intros Hm. eexists. split; [by apply handleMessage_state |].
  by rewrite nextState_enqueue.
Qed.

Lemma handleMessage_state_replaces_managerState_witness :
  Message.type state_message = JsString "state" ∧
  State.managerState
    (state (completed (handleMessage false state_message sample_mounted)))
  = JsObject 9.
Proof.
  split; [reflexivity |].
  destruct (handleMessage_state_replaces_managerState false state_message
              sample_mounted eq_refl) as (c' & Hrun & Hnext).
  rewrite Hrun. unfold completed. simpl.
  injection Hrun as <-. by rewrite <- Hnext at 1.
Defined.

(** X7: a 'status' message replaces the status by what the message
    carries and leaves every other field of the state as it would have
    been; the error sequence in particular is kept. *)
Theorem handleMessage_status_replaces_status (b : bool) (m : Message.t) (c : This) :
  Message.type m = JsString "status" →
  ∃ c',
    handleMessage b m c = (Normal tt, c', []) ∧
    nextState c' =
      State.mk (State.files (nextState c)) (State.browserPath (nextState c))
        (State.openedPath (nextState c)) (State.iframe (nextState c))
        (State.managerState (nextState c)) (State.errors (nextState c))
        (Message.status m).
Proof.
  intros Hm. eexists. split; [by apply handleMessage_status |].
  by rewrite nextState_enqueue.
Qed.

Lemma handleMessage_status_replaces_status_witness :
  Message.type status_message = JsString "status" ∧
  ∃ c',
    handleMessage true status_message sample_mounted = (Normal tt, c', []) ∧
    State.status (nextState c') = JsString "transpiling".
Proof.
  split; [reflexivity |].
  destruct (handleMessage_status_replaces_status true status_message
              sample_mounted eq_refl) as (c' & Hrun & Hnext).
  exists c'. split; [exact Hrun |]. by rewrite Hnext.
Defined.

(** X8: a build start followed by an error report leaves exactly one
    error, the one holding the title, path, message, line and column
    of that report, whatever the sequence held before and whether or
    not the two updates are batched. *)
Theorem start_then_error (b1 b2 : bool) (m1 m2 : Message.t) (c : This) :
  Message.type m1 = JsString "start" →
  Message.type m2 = JsString "action" → Message.action m2 = JsString "show-error" →
  ∃ c1 c2,
    handleMessage b1 m1 c = (Normal tt, c1, []) ∧
    handleMessage b2 m2 c1 = (Normal tt, c2, []) ∧
    State.errors (nextState c2) =
      [{| title := Message.title m2; path := Message.path m2;
          message := Message.message m2; line := Message.line m2;
          column := Message.column m2 |}].
Proof.
  intros H1 H2 Ha. eexists _, _.
  split; [by apply handleMessage_start |].
  split; [by apply handleMessage_show_error |].
  by rewrite !nextState_enqueue.
Qed.

(** After the error of line 3 and a start, the error of line 8 is the
    only one. *)
Lemma start_then_error_witness :
  State.errors
    (nextState (completed (handleMessage false (show_error 3) sample_mounted)))
  ≠ [] ∧
  ∃ c1 c2,
    handleMessage false start_message
      (completed (handleMessage false (show_error 3) sample_mounted))
    = (Normal tt, c1, []) ∧
    handleMessage false (show_error 8) c1 = (Normal tt, c2, []) ∧
    State.errors (nextState c2) =
      [{| title := JsString "SyntaxError"; path := JsString "/index.js";
          message := JsString "Unexpected token"; line := JsNumber 8;
          column := JsNumber 1 |}].
Proof.
  split; [discriminate |].
  apply (start_then_error false false start_message (show_error 8)
           (completed (handleMessage false (show_error 3) sample_mounted))
           eq_refl eq_refl eq_refl).
Defined.

(** ** Navigation and edits *)

(** X9: [openFile] only moves the open path: it returns normally,
    calls nothing outside, accepts any path (there need be no file
    at it) and leaves every other field of the state as it would have
    been. *)
Theorem openFile_moves_open_path (b : bool) (path : string) (c : This) :
  ∃ c',
    openFile b path c = (Normal tt, c', []) ∧
    nextState c' =
      State.mk (State.files (nextState c)) (State.browserPath (nextState c))
        path (State.iframe (nextState c))
        (State.managerState (nextState c)) (State.errors (nextState c))
        (State.status (nextState c)) ∧
    props c' = props c ∧ manager c' = manager c ∧ iframe c' = iframe c.
Proof.
  eexists. split; [reflexivity |].
  by rewrite nextState_enqueue, props_enqueue, manager_enqueue, iframe_enqueue.
Qed.

(** X10: when the content given differs from the content at the open
    path, [updateCurrentFile] does what [updateFiles] does with the
    stored files in which the file at the open path is replaced: that
    file is in the mapping once the update is applied, and every other
    path maps as in [this.state.files]. *)
Theorem updateCurrentFile_replaces_open_file (b : bool) (file : IFile) (c : This) :
  code file ≠ openedCode (state c) →
  let files' := <[State.openedPath (state c) := file]> (State.files (state c)) in
  ∃ c',
    updateCurrentFile b file c = updateFiles b files' c ∧
    updateCurrentFile b file c =
      (Normal tt, c', file_change_events c' files' ++ preview_events c' files') ∧
    State.files (nextState c') = files' ∧
    State.files (nextState c') !! State.openedPath (state c) = Some file ∧
    (∀ path, path ≠ State.openedPath (state c) →
             State.files (nextState c') !! path = State.files (state c) !! path).
Proof.
  intros Hcode files'.
  exists (enqueueSetState b (Partial (SetFiles files')) c). subst files'.
  rewrite updateCurrentFile_run, bool_decide_eq_true_2 by done.
  rewrite updateFiles_run. cbv zeta. rewrite nextState_enqueue. simpl.
  split; [reflexivity |]. split; [reflexivity |]. split; [reflexivity |].
  split; [apply lookup_insert_eq |].
  intros path Hpath. by apply lookup_insert_ne.
Qed.

Lemma updateCurrentFile_replaces_open_file_witness :
  code {| code := Some "edited" |} ≠ openedCode (state sample_mounted) ∧
  ∃ c',
    completed (updateCurrentFile false {| code := Some "edited" |} sample_mounted) = c' ∧
    State.files (nextState c') !! "/index.js" = Some {| code := Some "edited" |} ∧
    State.files (nextState c') !! "/package.json"
    = State.files (state sample_mounted) !! "/package.json".
Proof.
  assert (code {| code := Some "edited" |} ≠ openedCode (state sample_mounted))
    as Hne by discriminate.
  split; [exact Hne |].
  destruct (updateCurrentFile_replaces_open_file false {| code := Some "edited" |}
              sample_mounted Hne) as (c' & _ & Hrun & _ & Hfile & Hrest).
  exists c'. split; [by rewrite Hrun |].
  split; [exact Hfile |]. apply Hrest. discriminate.
Defined.

(** X11: outside a batch and with nothing queued, repeating
    [updateCurrentFile] with the same file does nothing the second
    time: the first call has put the file into [this.state], so the
    comparison of the second one short-circuits, without any call of
    the engine or of the change callback. *)
Theorem updateCurrentFile_twice_unbatched (file : IFile) (c : This) :
  pending c = [] →
  let c1 := completed (updateCurrentFile false file c) in
  updateCurrentFile false file c1 = (Normal tt, c1, []).
Proof.
  intros Hpending c1. subst c1. rewrite (updateCurrentFile_run false file c).
  destruct (bool_decide (code file ≠ openedCode (state c))) eqn:Hne.
  - rewrite updateFiles_run. cbv zeta. unfold completed.
    cbn [fst snd]. rewrite updateCurrentFile_run.
    rewrite bool_decide_eq_false_2; [done |].
    intros Hdiff. apply Hdiff.
    unfold openedCode, enqueueSetState, nextState. rewrite Hpending. simpl.
    by rewrite lookup_insert_eq.
  - unfold completed. cbn [fst snd]. rewrite updateCurrentFile_run. by rewrite Hne.
Qed.

Lemma updateCurrentFile_twice_unbatched_witness :
  pending sample_mounted = [] ∧
  trace (updateCurrentFile false {| code := Some "edited" |} sample_mounted) ≠ [] ∧
  trace (updateCurrentFile false {| code := Some "edited" |}
           (completed (updateCurrentFile false {| code := Some "edited" |}
                         sample_mounted))) = [].
Proof.
  split; [reflexivity |]. split; [discriminate |].
  by rewrite (updateCurrentFile_twice_unbatched {| code := Some "edited" |}
                sample_mounted eq_refl).
Defined.

(** X12: inside a batch [this.state] is not updated yet, so repeating
    [updateCurrentFile] with a changed file before React commits sends
    the same file set a second time: the second call performs the
    events of the first one again. *)
Theorem updateCurrentFile_twice_batched (file : IFile) (c : This) :
  code file ≠ openedCode (state c) →
  let files' := <[State.openedPath (state c) := file]> (State.files (state c)) in
  let c1 := completed (updateCurrentFile true file c) in
  updateCurrentFile true file c1 = updateFiles true files' c1 ∧
  trace (updateCurrentFile true file c1) = trace (updateCurrentFile true file c) ∧
  State.files (nextState (completed (updateCurrentFile true file c1))) = files'.
Proof.
  intros Hcode files' c1. subst c1 files'.
  rewrite (updateCurrentFile_run true file c), bool_decide_eq_true_2 by done.
  rewrite (updateFiles_run true _ c). cbv zeta. unfold completed. cbn [fst snd].
  rewrite updateCurrentFile_run. cbn [enqueueSetState state].
  rewrite bool_decide_eq_true_2 by done.
  rewrite updateFiles_run. cbv zeta. unfold trace. cbn [fst snd].
  rewrite nextState_enqueue. done.
Qed.

Lemma updateCurrentFile_twice_batched_witness :
  code {| code := Some "edited" |} ≠ openedCode (state sample_mounted) ∧
  length (List.filter is_UpdatePreview
            (trace (updateCurrentFile true {| code := Some "edited" |}
                      (completed (updateCurrentFile true {| code := Some "edited" |}
                                    sample_mounted))))) = 1.
Proof.
  assert (code {| code := Some "edited" |} ≠ openedCode (state sample_mounted))
    as Hne by discriminate.
  split; [exact Hne |].
  destruct (updateCurrentFile_twice_batched {| code := Some "edited" |}
              sample_mounted Hne) as (_ & Htrace & _).
  rewrite Htrace. reflexivity.
Defined.

(** ** [updateFiles] and the change callback *)

(** X13: the snapshot handed to the change callback is taken right
    after [setState]: outside a batch its files are the new ones,
    inside a batch they are still the files of [this.state], while the
    first argument of the callback is the new file set in both cases. *)
Theorem onFileChange_snapshot (b : bool) (files : IFiles) (callback : Callback)
    (c : This) :
  Props.onFileChange (props c) = Some callback →
  ∃ sandpack rest,
    trace (updateFiles b files c) = FileChange callback files sandpack :: rest ∧
    ctx_files sandpack = (if b then State.files (state c) else files) ∧
    ctx_openedPath sandpack =
      (if b then State.openedPath (state c) else State.openedPath (nextState c)) ∧
    List.filter is_FileChange rest = [].
Proof.
  intros Hcb. rewrite updateFiles_run. cbv zeta.
  unfold trace, file_change_events, preview_events. cbn [snd].
  rewrite props_enqueue, manager_enqueue, Hcb.
  eexists _, _. split; [reflexivity |].
  destruct b; simpl; (split; [done |]); (split; [done |]);
    by destruct (manager c).
Qed.

Lemma onFileChange_snapshot_witness :
  Props.onFileChange (props sample_mounted_callback) = Some 7 ∧
  ∃ sandpack rest,
    trace (updateFiles true ∅ sample_mounted_callback)
    = FileChange 7 ∅ sandpack :: rest ∧
    ctx_files sandpack = State.files (state sample_mounted_callback).
Proof.
  split; [reflexivity |].
  destruct (onFileChange_snapshot true ∅ 7 sample_mounted_callback eq_refl)
    as (sandpack & rest & Htrace & Hfiles & _).
  exists sandpack, rest. split; [exact Htrace | exact Hfiles].
Defined.

(** X14: of two calls of [updateFiles] the second decides the stored
    files, whether or not React commits in between; each call makes its
    own engine call, so the engine sees both file sets, in order. *)
Theorem updateFiles_last_wins (b1 b2 : bool) (files1 files2 : IFiles) (c : This) :
  let c1 := completed (updateFiles b1 files1 c) in
  let c2 := completed (updateFiles b2 files2 c1) in
  State.files (nextState c2) = files2 ∧
  List.filter is_UpdatePreview
    (trace (updateFiles b1 files1 c) ++ trace (updateFiles b2 files2 c1)) =
  preview_events c files1 ++ preview_events c files2.
Proof.
  intros c1 c2. subst c2 c1.
  rewrite (updateFiles_run b1 files1 c). cbv zeta. unfold completed, trace. cbn [fst snd].
  rewrite updateFiles_run. cbv zeta. cbn [fst snd].
  rewrite nextState_enqueue. split; [done |].
  unfold file_change_events, preview_events.
  rewrite !props_enqueue, !manager_enqueue.
  by destruct (Props.onFileChange (props c)), (manager c).
Qed.

(** ** Property updates *)

(** X15: on a mounted provider, an update in which the files object,
    the dependencies object, the entry or the template has changed
    (a new files object of the same content counts) and for which
    [createMissingPackageJSON] returns replaces the stored files by
    the files of the new properties with their descriptor: what the
    state held before, edits included, is not looked at. The change
    callback, if any, is called, then the engine receives exactly one
    [updatePreview] with those files, followed by [updateOptions] only
    if the eval-skip flag changed as well. *)
Theorem update_resynchronizes (accepts : IFiles → Prop) (b : bool)
    (newProps : Props.t) (newFiles : IFiles) (c : This) :
  lifecycle accepts Mounted c →
  resync_needed (props c) newProps = true →
  createMissingPackageJSON (deref (Props.files newProps))
    (deref <$> Props.dependencies newProps) (Props.entry newProps) = Normal newFiles →
  ∃ m c',
    manager c = Some m ∧
    update b newProps c =
      (Normal tt, c',
       file_change_events c' newFiles ++
       [UpdatePreview m
          {| info_showOpenInCodeSandbox := Props.showOpenInCodeSandbox newProps;
             info_files := newFiles;
             info_template := Props.template newProps |}] ++
       (if bool_decide (Props.skipEval newProps ≠ Props.skipEval (props c))
        then [UpdateOptions m (getOptions c')] else [])) ∧
    State.files (nextState c') = newFiles ∧
    has_package_json (State.files (nextState c')) ∧
    props c' = newProps ∧ manager c' = Some m.
Proof.
  intros Hlife Hneeded Hnew.
  destruct (mounted_has_manager _ _ _ Hlife eq_refl) as [m Hm].
  set (c0 := mkThis newProps (nextState c) [] (manager c) (iframe c)).
  exists m, (enqueueSetState b (Partial (SetFiles newFiles)) c0).
  split; [done |].
  assert (has_package_json newFiles) as Hpkg
    by (by eapply createMissingPackageJSON_has_package_json).
  rewrite nextState_enqueue, props_enqueue, manager_enqueue.
  split; [|split; [done | split; [exact Hpkg | split; [done | exact Hm]]]].
  rewrite update_run. fold c0. rewrite componentDidUpdate_run.
  change (props c0) with newProps. rewrite Hneeded, Hnew. cbv zeta.
  unfold preview_events, options_events.
  rewrite manager_enqueue, props_enqueue.
  change (manager c0) with (manager c). change (props c0) with newProps.
  by rewrite Hm, <- app_assoc.
Qed.

Lemma update_resynchronizes_witness :
  lifecycle any_files Mounted sample_emptied ∧
  resync_needed (props sample_emptied) sample_props_fresh_files = true ∧
  ∃ c',
    completed (update true sample_props_fresh_files sample_emptied) = c' ∧
    State.files (state sample_emptied) = ∅ ∧
    has_package_json (State.files (nextState c')).
Proof.
  assert (lifecycle any_files Mounted sample_emptied) as Hlife.
  { eapply (life_update any_files true sample_props
              (completed (updateFiles true ∅ sample_mounted)) sample_emptied);
      [|reflexivity].
    eapply (life_call any_files true Mounted (CallUpdateFiles ∅) sample_mounted);
      [apply sample_mounted_life | done | reflexivity]. }
  split; [exact Hlife |]. split; [reflexivity |].
  destruct (update_resynchronizes any_files true sample_props_fresh_files _
              sample_emptied Hlife eq_refl eq_refl)
    as (m & c' & _ & Hrun & _ & Hpkg & _).
  exists c'. split; [by rewrite Hrun |]. split; [reflexivity | exact Hpkg].
Defined.

(** X16: the configuration error is raised at update time too: when
    such an update comes with files that have no descriptor and
    [createMissingPackageJSON] throws, [componentDidUpdate] throws that
    error before anything is queued or sent; [updateOptions] is not
    called either, even if the eval-skip flag changed. *)
Theorem update_throws_configuration_error (b : bool) (newProps : Props.t)
    (e : Exn) (c : This) :
  resync_needed (props c) newProps = true →
  createMissingPackageJSON (deref (Props.files newProps))
    (deref <$> Props.dependencies newProps) (Props.entry newProps) = Throw e →
  update b newProps c =
  (Throw e, mkThis newProps (nextState c) [] (manager c) (iframe c), []).
Proof.
  intros Hneeded Hthrow. rewrite update_run, componentDidUpdate_run. cbn [props].
  by rewrite Hneeded, Hthrow.
Qed.

Lemma update_throws_configuration_error_witness :
  resync_needed (props sample_mounted) sample_props_bare_fresh = true ∧
  Props.skipEval sample_props_bare_fresh ≠ Props.skipEval (props sample_mounted) ∧
  update true sample_props_bare_fresh sample_mounted =
  (Throw (Error no_dependencies),
   mkThis sample_props_bare_fresh (nextState sample_mounted) []
     (manager sample_mounted) (iframe sample_mounted), []).
Proof.
  split; [reflexivity |]. split; [discriminate |].
  apply (update_throws_configuration_error true sample_props_bare_fresh
           (Error no_dependencies) sample_mounted); reflexivity.
Defined.

(** X17: an update that keeps the files object, the dependencies
    object, the entry, the template and the eval-skip flag makes
    [componentDidUpdate] call nothing: no method of the manager and no
    change callback, with or without a manager, whatever else has
    changed. The manager stays the handle made at mount time, with the
    options it was made with, so it is not told of a new bundler URL or
    file resolver. A new bundler URL reaches the hidden iframe all the
    same, through [render], which takes the [src] of the iframe from
    the properties. *)
Theorem update_other_properties_silent (b : bool) (newProps : Props.t) (c : This) :
  resync_needed (props c) newProps = false →
  Props.skipEval newProps = Props.skipEval (props c) →
  ∃ c',
    update b newProps c = (Normal tt, c', []) ∧
    c' = mkThis newProps (nextState c) [] (manager c) (iframe c) ∧
    manager c' = manager c ∧
    render_iframe_src c' = Props.bundlerURL newProps.
Proof.
  intros Hsame Hskip. eexists. split; [|by repeat split].
  rewrite update_run, componentDidUpdate_run. cbn [props].
  rewrite Hsame. unfold options_events. cbn [manager props].
  destruct (manager c); [|done].
  by rewrite bool_decide_eq_false_2 by (intros H; by apply H).
Qed.

(** A new bundler URL on the mounted sample provider: nothing is
    called, the manager still has the options of mount time, and the
    iframe is rendered with the new URL. *)
Lemma update_other_properties_silent_witness :
  resync_needed (props sample_mounted) sample_props_bundler = false ∧
  render_iframe_src sample_mounted = None ∧
  ∃ c',
    update true sample_props_bundler sample_mounted = (Normal tt, c', []) ∧
    (opt_bundlerURL ∘ manager_options) <$> manager c' = Some None ∧
    render_iframe_src c' = Some "https://bundler.example/".
Proof.
  split; [reflexivity |]. split; [reflexivity |].
  destruct (update_other_properties_silent true sample_props_bundler
              sample_mounted eq_refl eq_refl) as (c' & Hrun & -> & _ & Hsrc).
  eexists. split; [exact Hrun |]. split; [reflexivity | exact Hsrc].
Defined.

(** ** What stays the same through the life of a provider *)

Lemma handleMessage_touches (b : bool) (m : Message.t) (c : This) :
  ∃ c', handleMessage b m c = (Normal tt, c', []) ∧
        (c' = c ∨ ∃ u, c' = enqueueSetState b u c ∧
                       ∀ s, State.iframe (applyUpdate s u) = State.iframe s ∧
                            State.browserPath (applyUpdate s u) = State.browserPath s).
Proof.
  unfold handleMessage.
  do 3 (destruct (bool_decide _); [eexists; split; [reflexivity | right; by eexists] |]).
  destruct (_ && _).
  - eexists; split; [reflexivity | right; by eexists].
  - eexists; split; [reflexivity | by left].
Qed.

Lemma perform_keeps_iframe_and_browserPath (b : bool) (call : Call) (c c' : This) r evs :
  perform b call c = (r, c', evs) →
  State.iframe (nextState c') = State.iframe (nextState c) ∧
  State.browserPath (nextState c') = State.browserPath (nextState c).
Proof.
  destruct call as [m|files|file|path]; simpl.
  - destruct (handleMessage_touches b m c) as (c1 & -> & [->|(u & -> & Hu)]);
      intros [= <- <- <-]; [done |].
    rewrite nextState_enqueue. apply Hu.
  - rewrite updateFiles_run. intros [= <- <- <-]. by rewrite nextState_enqueue.
  - rewrite updateCurrentFile_run. destruct (bool_decide _).
    + rewrite updateFiles_run. intros [= <- <- <-]. by rewrite nextState_enqueue.
    + by intros [= <- <- <-].
  - unfold openFile. rewrite setState_run. intros [= <- <- <-].
    by rewrite nextState_enqueue.
Qed.

Lemma update_frame (b : bool) (newProps : Props.t) (c c' : This) r evs :
  update b newProps c = (r, c', evs) →
  State.iframe (nextState c') = State.iframe (nextState c) ∧
  State.browserPath (nextState c') = State.browserPath (nextState c) ∧
  iframe c' = iframe c.
Proof.
  rewrite update_run, componentDidUpdate_run.
  destruct (resync_needed _ _).
  - destruct (createMissingPackageJSON _ _ _); cbv zeta; intros [= <- <- <-];
      [by rewrite nextState_enqueue, iframe_enqueue | done].
  - by intros [= <- <- <-].
Qed.

(** X18: the iframe is kept in three places, and they agree in every
    state a provider reaches: [this.iframe], the iframe of the state
    React will commit, and the element the manager was made for. Before
    the reference callback has run all three are absent and there is
    no manager; from the mount on, through unmounting too, all three
    are present and are the same element. *)
Theorem iframe_copies_agree (accepts : IFiles → Prop) (phase : Phase) (c : This) :
  lifecycle accepts phase c →
  State.iframe (nextState c) = iframe c ∧
  iframe c = manager_iframe <$> manager c ∧
  match phase with
  | Constructed => iframe c = None ∧ manager c = None
  | Mounted | Unmounted =>
      ∃ el, iframe c = Some el ∧
            State.iframe (nextState c) = Some el ∧
            manager_iframe <$> manager c = Some el
  end.
Proof.
  induction 1 as [props0 c evs Hc|b el c c' evs Hc IH Hrun|b phase call c c' evs Hc IH Hok Hrun
                 |b newProps c c' evs Hc IH Hrun|b c c1 c2 evs1 evs2 Hc IH H1 H2].
  - unfold constructor in Hc.
    destruct (createMissingPackageJSON _ _ _); [|done]. by injection Hc as <- _.
  - rewrite setupFrame_run in Hrun. injection Hrun as <- _.
    rewrite nextState_enqueue, iframe_enqueue, manager_enqueue.
    split; [done |]. split; [done |]. by exists el.
  - destruct IH as (IH1 & IH2 & IH3).
    pose proof (perform_frame _ _ _ _ _ _ Hrun) as (_ & Hm & Hi).
    pose proof (perform_keeps_iframe_and_browserPath _ _ _ _ _ _ Hrun) as [Hs _].
    rewrite Hs, Hm, Hi. split; [done |]. split; [done |]. exact IH3.
  - destruct IH as (IH1 & IH2 & IH3).
    pose proof (update_frame _ _ _ _ _ _ Hrun) as (Hs & _ & Hi).
    rewrite (update_manager _ _ _ _ _ _ Hrun), Hs, Hi.
    split; [done |]. split; [done |]. exact IH3.
  - injection H1 as <- _. injection H2 as <- _. exact IH.
Qed.

Lemma iframe_copies_agree_witness :
  lifecycle any_files Mounted sample_mounted ∧
  State.iframe (nextState sample_mounted) = Some 5 ∧
  iframe sample_mounted = Some 5 ∧
  manager_iframe <$> manager sample_mounted = Some 5.
Proof.
  split; [apply sample_mounted_life |].
  destruct (iframe_copies_agree any_files Mounted sample_mounted
              (sample_mounted_life any_files)) as (_ & _ & el & Hi & Hs & Hm).
  assert (el = 5) as -> by (by injection Hi).
  split; [exact Hs |]. split; [exact Hi | exact Hm].
Defined.

Lemma constructed_no_manager (accepts : IFiles → Prop) (phase : Phase) (c : This) :
  lifecycle accepts phase c → phase = Constructed → manager c = None.
Proof.
  induction 1 as [props0 c evs Hc|b el c c' evs Hc IH Hrun|b phase call c c' evs Hc IH Hok Hrun
                 |b newProps c c' evs Hc IH Hrun|b c c1 c2 evs1 evs2 Hc IH H1 H2];
    intros Hphase; try discriminate.
  - unfold constructor in Hc.
    destruct (createMissingPackageJSON _ _ _); [|done]. by injection Hc as <- _.
  - apply perform_frame in Hrun as (_ & -> & _). auto.
Qed.

Lemma perform_no_manager (b : bool) (call : Call) (c : This) :
  manager c = None → List.filter is_engine_call (trace (perform b call c)) = [].
Proof.
  intros Hm. destruct call as [m|files|file|path]; simpl.
  - by destruct (handleMessage_touches b m c) as (c1 & -> & _).
  - rewrite updateFiles_run. cbv zeta. unfold trace, file_change_events, preview_events.
    cbn [snd]. rewrite manager_enqueue, Hm, app_nil_r.
    by destruct (Props.onFileChange _).
  - rewrite updateCurrentFile_run. destruct (bool_decide _); [|done].
    rewrite updateFiles_run. cbv zeta. unfold trace, file_change_events, preview_events.
    cbn [snd]. rewrite manager_enqueue, Hm, app_nil_r.
    by destruct (Props.onFileChange _).
  - done.
Qed.

(** X19: before the iframe reference is attached nothing reaches the
    engine: a provider that is constructed and not yet mounted has no
    manager, and a message or a context operation on it makes no
    [updatePreview], [updateOptions] or [new Manager] call. *)
Theorem no_engine_call_before_mount (accepts : IFiles → Prop) (b : bool)
    (call : Call) (c : This) :
  lifecycle accepts Constructed c →
  manager c = None ∧
  List.filter is_engine_call (trace (perform b call c)) = [].
Proof.
  intros Hlife.
  pose proof (constructed_no_manager accepts Constructed c Hlife eq_refl) as Hm.
  split; [exact Hm | by apply perform_no_manager].
Qed.

Lemma no_engine_call_before_mount_witness :
  lifecycle any_files Constructed sample_constructed ∧
  manager sample_constructed = None ∧
  List.filter is_engine_call
    (trace (perform true (CallUpdateCurrentFile {| code := Some "edited" |})
              sample_constructed)) = [].
Proof.
  split; [apply sample_constructed_life |].
  apply (no_engine_call_before_mount any_files true
           (CallUpdateCurrentFile {| code := Some "edited" |}) sample_constructed
           (sample_constructed_life any_files)).
Defined.

(** X20: nothing the provider does after construction changes the
    browser path: not a message, not a context operation, not the
    reference callback, not a property update (a new [initialPath]
    included). *)
Theorem browserPath_never_changes (b : bool) (c : This) :
  (∀ call, State.browserPath (nextState (completed (perform b call c)))
           = State.browserPath (nextState c)) ∧
  (∀ el, State.browserPath (nextState (completed (setupFrame b el c)))
         = State.browserPath (nextState c)) ∧
  (∀ newProps, State.browserPath (nextState (completed (update b newProps c)))
               = State.browserPath (nextState c)).
Proof.
  split; [|split].
  - intros call. destruct (perform b call c) as [[r c'] evs] eqn:Hrun.
    unfold completed. cbn [fst snd].
    by apply perform_keeps_iframe_and_browserPath in Hrun as [_ ->].
  - intros [el|]; [|done]. rewrite setupFrame_run. unfold completed. cbn [fst snd].
    by rewrite nextState_enqueue.
  - intros newProps. destruct (update b newProps c) as [[r c'] evs] eqn:Hrun.
    unfold completed. cbn [fst snd].
    by apply update_frame in Hrun as (_ & -> & _).
Qed.

(** ** The wrapper's display name *)

Lemma or_else_length (a : option string) (b : string) :
  0 < String.length b → 0 < String.length (or_else a b).
Proof.
  intros Hb. destruct a as [s|]; simpl; [|done].
  destruct (decide (s = EmptyString)); [done |].
  destruct s; [done | simpl; lia].
Qed.

(** X21: [getDisplayName] never returns the empty string: a component
    with neither a display name nor a function name is called
    'Component'. *)
Theorem getDisplayName_never_empty (C : Component.t) :
  0 < String.length (getDisplayName C) ∧
  getDisplayName (Component.mk None EmptyString) = "Component" ∧
  getDisplayName (Component.mk (Some EmptyString) EmptyString) = "Component".
Proof.
  split; [|done]. unfold getDisplayName.
  apply or_else_length, or_else_length. simpl. lia.
Qed.

(** X22: the component [withSandpack] returns is named after the one
    it wraps, 'WithSandpack(' its display name ')', and that name is
    what [getDisplayName] gives for it, so wrappers nest in the name. *)
Theorem withSandpack_displayName (C : Component.t) :
  getDisplayName (withSandpack C) = "WithSandpack(" +:+ getDisplayName C +:+ ")" ∧
  getDisplayName (withSandpack (withSandpack C)) =
    "WithSandpack(" +:+ ("WithSandpack(" +:+ getDisplayName C +:+ ")") +:+ ")".
Proof.
  assert (∀ D, getDisplayName (withSandpack D)
               = "WithSandpack(" +:+ getDisplayName D +:+ ")") as Hname.
  { intros D. unfold getDisplayName at 1. unfold withSandpack, or_else at 1.
    cbn [Component.displayName].
    destruct (decide (_ = EmptyString)) as [H|]; [discriminate H | done]. }
  split; [apply Hname |]. by rewrite !Hname.
Qed.

(** ** The transpiler context request *)

Lemma deliver_not_requested (ms : list TranspilerContext.message) :
  Forall (λ m, ¬ TranspilerContext.is_request m) ms →
  TranspilerContext.deliver TranspilerContext.Pending ms
  = (TranspilerContext.Pending, []).
Proof.
  induction 1 as [|m ms Hm Hms IH]; simpl; [done |].
  unfold TranspilerContext.is_request in Hm.
  rewrite bool_decide_eq_false_2 by done. by rewrite IH.
Qed.

Lemma deliver_resolved (d : any) (ms : list TranspilerContext.message) :
  TranspilerContext.deliver (TranspilerContext.Resolved d) ms
  = (TranspilerContext.Resolved d, []).
Proof. induction ms as [|m ms IH]; simpl; [done | by rewrite IH]. Qed.

(** X23: the promise of [getManagerTranspilerContext] resolves with
    the data of the first 'transpiler-context' message the channel
    delivers, and the listener unsubscribes at that moment: messages
    of other types before it are passed over, and whatever comes
    after it, further 'transpiler-context' messages included, changes
    nothing and resolves nothing again. *)
Theorem transpiler_context_first_answer
    (before after : list TranspilerContext.message) (m : TranspilerContext.message) :
  Forall (λ m', ¬ TranspilerContext.is_request m') before →
  TranspilerContext.is_request m →
  TranspilerContext.deliver TranspilerContext.Pending (before ++ m :: after) =
  (TranspilerContext.Resolved (TranspilerContext.data m),
   [TranspilerContext.Resolve (TranspilerContext.data m); TranspilerContext.Unlisten]).
Proof.
  intros Hbefore Hm. induction Hbefore as [|m' before Hm' Hbefore IH]; simpl.
  - unfold TranspilerContext.is_request in Hm.
    rewrite bool_decide_eq_true_2 by done. by rewrite deliver_resolved.
  - unfold TranspilerContext.is_request in Hm'.
    rewrite bool_decide_eq_false_2 by done. by rewrite IH.
Qed.

Lemma transpiler_context_first_answer_witness :
  TranspilerContext.deliver TranspilerContext.Pending
    ([TranspilerContext.mkMessage (JsString "status") JsUndefined] ++
     TranspilerContext.mkMessage (JsString "transpiler-context") (JsObject 1) ::
     [TranspilerContext.mkMessage (JsString "transpiler-context") (JsObject 2)]) =
  (TranspilerContext.Resolved (JsObject 1),
   [TranspilerContext.Resolve (JsObject 1); TranspilerContext.Unlisten]).
Proof.
  apply (transpiler_context_first_answer
           [TranspilerContext.mkMessage (JsString "status") JsUndefined]
           [TranspilerContext.mkMessage (JsString "transpiler-context") (JsObject 2)]
           (TranspilerContext.mkMessage (JsString "transpiler-context") (JsObject 1))).
  - apply Forall_singleton. discriminate.
  - reflexivity.
Defined.

(** X24: a request made while no manager exists is not sent at all:
    the call only subscribes, and as long as no 'transpiler-context'
    message arrives the promise stays pending, the listener stays
    subscribed, and nothing rejects it or times it out. *)
Theorem transpiler_context_without_manager (c : This)
    (ms : list TranspilerContext.message) :
  manager c = None →
  Forall (λ m, ¬ TranspilerContext.is_request m) ms →
  TranspilerContext.getManagerTranspilerContext c
  = (TranspilerContext.Pending, [TranspilerContext.Listen]) ∧
  TranspilerContext.deliver TranspilerContext.Pending ms
  = (TranspilerContext.Pending, []).
Proof.
  intros Hm Hms. split; [|by apply deliver_not_requested].
  unfold TranspilerContext.getManagerTranspilerContext. by rewrite Hm.
Qed.

Lemma transpiler_context_without_manager_witness :
  manager sample_constructed = None ∧
  TranspilerContext.getManagerTranspilerContext sample_constructed
  = (TranspilerContext.Pending, [TranspilerContext.Listen]) ∧
  TranspilerContext.deliver TranspilerContext.Pending
    [TranspilerContext.mkMessage (JsString "start") JsUndefined;
     TranspilerContext.mkMessage (JsString "status") JsUndefined]
  = (TranspilerContext.Pending, []).
Proof.
  split; [reflexivity |].
  apply (transpiler_context_without_manager sample_constructed
           [TranspilerContext.mkMessage (JsString "start") JsUndefined;
            TranspilerContext.mkMessage (JsString "status") JsUndefined]).
  - reflexivity.
  - repeat constructor; discriminate.
Defined.

(** X25: on a mounted provider the request is sent: the call subscribes
    first and then dispatches 'get-transpiler-context' to the manager,
    once. *)
Theorem transpiler_context_dispatched (accepts : IFiles → Prop) (c : This) :
  lifecycle accepts Mounted c →
  ∃ m,
    manager c = Some m ∧
    TranspilerContext.getManagerTranspilerContext c =
    (TranspilerContext.Pending,
     [TranspilerContext.Listen;
      TranspilerContext.Dispatch m "get-transpiler-context"]).
Proof.
  intros Hlife. destruct (mounted_has_manager _ _ _ Hlife eq_refl) as [m Hm].
  exists m. split; [done |].
  unfold TranspilerContext.getManagerTranspilerContext. by rewrite Hm.
Qed.

Lemma transpiler_context_dispatched_witness :
  lifecycle any_files Mounted sample_mounted ∧
  ∃ m,
    manager sample_mounted = Some m ∧
    TranspilerContext.getManagerTranspilerContext sample_mounted =
    (TranspilerContext.Pending,
     [TranspilerContext.Listen;
      TranspilerContext.Dispatch m "get-transpiler-context"]).
Proof.
  split; [apply sample_mounted_life |].
  apply (transpiler_context_dispatched any_files sample_mounted
           (sample_mounted_life any_files)).
Defined.

(** ** The engine handle *)

(** X26: only the reference callback makes a manager. No message, no
    context operation and no property update replaces or drops the
    handle, and none of them makes a [new Manager] call: the manager
    keeps the options it was made with, whatever the later properties
    say, and detaching the reference ([setupFrame(null)]) and
    unmounting leave it in place as well. *)
Theorem manager_never_replaced (b : bool) (c : This) :
  (∀ call, manager (completed (perform b call c)) = manager c) ∧
  (∀ newProps, manager (completed (update b newProps c)) = manager c) ∧
  manager (completed (setupFrame b None c)) = manager c ∧
  manager (completed (componentWillUnmount c)) = manager c ∧
  (∀ call el fs ds en tp sh op,
     NewManager el fs ds en tp sh op ∉ trace (perform b call c)) ∧
  (∀ newProps el fs ds en tp sh op,
     NewManager el fs ds en tp sh op ∉ trace (update b newProps c)).
Proof.
  split; [|split; [|split; [done | split; [done | split]]]].
  - intros call. destruct (perform b call c) as [[r c'] evs] eqn:Hrun.
    unfold completed. cbn [fst snd].
    by apply perform_frame in Hrun as (_ & -> & _).
  - intros newProps. destruct (update b newProps c) as [[r c'] evs] eqn:Hrun.
    unfold completed. cbn [fst snd].
    by apply update_manager in Hrun as ->.
  - intros call el fs ds en tp sh op. destruct call as [m|files|file|path]; simpl.
    + destruct (handleMessage_touches b m c) as (c1 & -> & _). apply not_elem_of_nil.
    + rewrite updateFiles_run. cbv zeta.
      unfold trace, file_change_events, preview_events. cbn [snd].
      rewrite manager_enqueue, props_enqueue.
      destruct (Props.onFileChange _), (manager _); no_such_event.
    + rewrite updateCurrentFile_run. destruct (bool_decide _); [|apply not_elem_of_nil].
      rewrite updateFiles_run. cbv zeta.
      unfold trace, file_change_events, preview_events. cbn [snd].
      rewrite manager_enqueue, props_enqueue.
      destruct (Props.onFileChange _), (manager _); no_such_event.
    + apply not_elem_of_nil.
  - intros newProps el fs ds en tp sh op.
    rewrite update_run, componentDidUpdate_run.
    destruct (resync_needed _ _).
    + destruct (createMissingPackageJSON _ _ _); cbv zeta; [|apply not_elem_of_nil].
      unfold trace, file_change_events, preview_events, options_events. cbn [snd].
      rewrite manager_enqueue, props_enqueue. cbn [manager props].
      destruct (Props.onFileChange _), (manager c); try destruct (bool_decide _);
        no_such_event.
    + unfold trace, options_events. cbn [snd manager props].
      destruct (manager c); try destruct (bool_decide _); no_such_event.
Qed.
